(** * SmartContentExtractor: a shallow embedding and its checked properties

    This development embeds [database_operations/smart_extractor.py] in Rocq
    and proves properties of the extraction engine: the pattern registry, the
    matching and cleaning pipeline, the confidence scorer, the document
    classifier, the theme and entity miners and the database field mapper.

    Modelling conventions.
    - A Python [str] is a [string]: a sequence of 8-bit characters.  Character
      classification and case conversion follow Python on the ASCII range;
      characters above 127 are caseless and are neither spaces, digits nor
      word characters.
    - A Python [float] is a binary64 [float] of the kernel, so the arithmetic
      of the scorer is the arithmetic Python performs.
    - A dictionary whose iteration order is observable is an insertion-ordered
      association list ([confidence_scores], the entity map); the other
      dictionaries are [gmap string _].
    - Code that may raise returns an [outcome]: [Ok v] or [Raise e].
    - [re], [datetime.strptime]/[strftime] are library code; the fragment the
      extractor relies on is modelled below ([Module Re], [Module Datetime]).
      [json.dumps] and the wall clock are parameters. *)

From Stdlib Require Import Ascii String List ZArith Lia Bool PrimFloat.
From Stdlib Require DecimalString Uint63.
From stdpp Require Import base option list gmap strings.

Set Warnings "-inexact-float,-abstract-large-number".
Local Open Scope string_scope.
Local Open Scope list_scope.

(** ** Exceptions *)

Inductive exn :=
| ValueError
| KeyError
| ZeroDivisionError
| TypeError
| AttributeError
| ReError.

Inductive outcome (A : Type) :=
| Ok (a : A)
| Raise (e : exn).
Arguments Ok {A} a.
Arguments Raise {A} e.

#[global] Instance outcome_ret : MRet outcome := @Ok.
#[global] Instance outcome_bind : MBind outcome := fun A B f m =>
  match m with
  | Ok a => f a
  | Raise e => Raise e
  end.

Definition returns {A} (m : outcome A) : Prop := exists a, m = Ok a.

(** A [for] loop that collects one value per item and stops at the first
    exception. *)
Fixpoint rmapM {A B} (f : A -> outcome B) (l : list A) : outcome (list B) :=
  match l with
  | [] => Ok []
  | x :: l' => y ← f x; ys ← rmapM f l'; Ok (y :: ys)
  end.

(** ** Python string primitives *)

Module Py.

Definition code (c : ascii) : nat := nat_of_ascii c.

Definition newline : ascii := ascii_of_nat 10.

Definition between (lo hi : nat) (c : ascii) : bool :=
  Nat.leb lo (code c) && Nat.leb (code c) hi.

Definition is_upper (c : ascii) : bool := between 65 90 c.
Definition is_lower (c : ascii) : bool := between 97 122 c.
Definition is_alpha (c : ascii) : bool := is_upper c || is_lower c.
Definition is_digit (c : ascii) : bool := between 48 57 c.

(** [str.isspace] on the ASCII range: tab, LF, VT, FF, CR, the four
    separators FS GS RS US, and the space. *)
Definition is_space (c : ascii) : bool :=
  between 9 13 c || between 28 32 c.

(** [\w] of the [re] module. *)
Definition is_word (c : ascii) : bool :=
  is_alpha c || is_digit c || Nat.eqb (code c) 95.

Definition lower_char (c : ascii) : ascii :=
  if is_upper c then ascii_of_nat (code c + 32) else c.
Definition upper_char (c : ascii) : ascii :=
  if is_lower c then ascii_of_nat (code c - 32) else c.
Definition swapcase_char (c : ascii) : ascii :=
  if is_upper c then lower_char c else upper_char c.

Fixpoint smap (f : ascii -> ascii) (s : string) : string :=
  match s with
  | EmptyString => EmptyString
  | String c s' => String (f c) (smap f s')
  end.

(** [s.lower()] and [s.upper()] *)
Definition lower (s : string) : string := smap lower_char s.
Definition upper (s : string) : string := smap upper_char s.

(** [s.title()]: a cased character is upper-cased when it follows an uncased
    one (or starts the string) and lower-cased otherwise. *)
Fixpoint title_from (prev_cased : bool) (s : string) : string :=
  match s with
  | EmptyString => EmptyString
  | String c s' =>
      String (if prev_cased then lower_char c else upper_char c)
             (title_from (is_alpha c) s')
  end.
Definition title (s : string) : string := title_from false s.

Fixpoint lstrip (s : string) : string :=
  match s with
  | String c s' => if is_space c then lstrip s' else s
  | EmptyString => EmptyString
  end.

(** [rstrip] keeps a character when it is not a space or when something
    survives to its right. *)
Fixpoint rstrip (s : string) : string :=
  match s with
  | EmptyString => EmptyString
  | String c s' =>
      match rstrip s' with
      | EmptyString => if is_space c then EmptyString else String c EmptyString
      | t => String c t
      end
  end.

(** [s.strip()] *)
Definition strip (s : string) : string := rstrip (lstrip s).

Fixpoint starts_with (p s : string) : bool :=
  match p, s with
  | EmptyString, _ => true
  | String a p', String b s' => Ascii.eqb a b && starts_with p' s'
  | String _ _, EmptyString => false
  end.

(** [p in s] for two strings *)
Fixpoint contains (p s : string) : bool :=
  starts_with p s ||
  match s with
  | EmptyString => false
  | String _ s' => contains p s'
  end.

(** [sep.join(l)] *)
Fixpoint join (sep : string) (l : list string) : string :=
  match l with
  | [] => EmptyString
  | [x] => x
  | x :: l' => x +:+ sep +:+ join sep l'
  end.

(** [any(w in s for w in ws)] *)
Definition any_in (ws : list string) (s : string) : bool :=
  existsb (fun w => contains w s) ws.

(** Truth value of a string *)
Definition truthy (s : string) : bool :=
  match s with EmptyString => false | _ => true end.

Fixpoint take_chars (n : nat) (s : string) : string :=
  match n, s with
  | S n', String c s' => String c (take_chars n' s')
  | _, _ => EmptyString
  end.

Fixpoint drop_chars (n : nat) (s : string) : string :=
  match n, s with
  | S n', String _ s' => drop_chars n' s'
  | _, _ => s
  end.

(** The characters of a string, as one-character strings (iterating a
    [str]). *)
Fixpoint chars (s : string) : list string :=
  match s with
  | EmptyString => []
  | String c s' => String c EmptyString :: chars s'
  end.

End Py.

(** ** The fragment of Python's [re] used by the extractor

    A backtracking matcher with the search order of [re]: alternatives left
    to right, greedy repetitions longest first, lazy ones shortest first.
    Patterns are kept as the strings of the source and compiled by
    [compile]. *)

Module Re.
Import Py.

Inductive citem :=
| CChar (c : ascii)
| CRange (lo hi : ascii)
| CDigit
| CSpace
| CWord.

Inductive regex :=
| REmpty
| RChar (c : ascii)
| RAny
| RSet (neg : bool) (items : list citem)
| RBol
| RWordB
| RSeq (r1 r2 : regex)
| RAlt (r1 r2 : regex)
| RRep (lo : nat) (hi : option nat) (greedy : bool) (r : regex)
| RGroup (n : nat) (r : regex)
| RNotAhead (r : regex).

(** [re.IGNORECASE] and [re.MULTILINE] *)
Record flags := { ignorecase : bool; multiline : bool }.

Definition no_flags : flags := {| ignorecase := false; multiline := false |}.
Definition flag_i : flags := {| ignorecase := true; multiline := false |}.
Definition flag_im : flags := {| ignorecase := true; multiline := true |}.

(** *** Compiling a pattern string *)

Definition is_punct (c : ascii) : bool :=
  negb (is_word c) && Nat.ltb (code c) 128.

(** An escape outside a character set. *)
Definition escape (c : ascii) : option regex :=
  if Ascii.eqb c "d" then Some (RSet false [CDigit])
  else if Ascii.eqb c "s" then Some (RSet false [CSpace])
  else if Ascii.eqb c "w" then Some (RSet false [CWord])
  else if Ascii.eqb c "b" then Some RWordB
  else if Ascii.eqb c "n" then Some (RChar newline)
  else if is_punct c then Some (RChar c)
  else None.

(** An escape inside a character set. *)
Definition set_escape (c : ascii) : option citem :=
  if Ascii.eqb c "d" then Some CDigit
  else if Ascii.eqb c "s" then Some CSpace
  else if Ascii.eqb c "w" then Some CWord
  else if Ascii.eqb c "n" then Some (CChar newline)
  else if is_punct c then Some (CChar c)
  else None.

(** The members of a set, up to the closing bracket. *)
Fixpoint parse_items (s : string) : option (list citem * string) :=
  match s with
  | EmptyString => None
  | String c rest =>
      if Ascii.eqb c "]" then Some ([], rest)
      else if Ascii.eqb c "\" then
        match rest with
        | String e rest' =>
            it ← set_escape e;
            '(items, tl) ← parse_items rest';
            Some (it :: items, tl)
        | EmptyString => None
        end
      else
        match rest with
        | String d (String hi rest') =>
            if Ascii.eqb d "-" && negb (Ascii.eqb hi "]") && negb (Ascii.eqb hi "\")
            then '(items, tl) ← parse_items rest'; Some (CRange c hi :: items, tl)
            else '(items, tl) ← parse_items rest; Some (CChar c :: items, tl)
        | _ => '(items, tl) ← parse_items rest; Some (CChar c :: items, tl)
        end
  end.

Fixpoint parse_digits (acc : nat) (s : string) : nat * string :=
  match s with
  | String c rest =>
      if is_digit c then parse_digits (10 * acc + (code c - 48)) rest
      else (acc, s)
  | EmptyString => (acc, s)
  end.

Definition starts_digit (s : string) : bool :=
  match s with String c _ => is_digit c | EmptyString => false end.

(** A trailing [?] makes the quantifier lazy. *)
Definition greediness (s : string) : bool * string :=
  match s with
  | String c rest => if Ascii.eqb c "?" then (false, rest) else (true, s)
  | EmptyString => (true, s)
  end.

Definition parse_bounds (s : string) : option (nat * option nat * string) :=
  if starts_digit s then
    let '(lo, s1) := parse_digits 0 s in
    match s1 with
    | String c s2 =>
        if Ascii.eqb c "}" then Some (lo, Some lo, s2)
        else if Ascii.eqb c "," then
          if starts_digit s2 then
            let '(hi, s3) := parse_digits 0 s2 in
            match s3 with
            | String c3 s4 => if Ascii.eqb c3 "}" then Some (lo, Some hi, s4) else None
            | EmptyString => None
            end
          else
            match s2 with
            | String c3 s4 => if Ascii.eqb c3 "}" then Some (lo, None, s4) else None
            | EmptyString => None
            end
        else None
    | EmptyString => None
    end
  else None.

(** The quantifier that may follow an atom. *)
Definition parse_quant (a : regex) (s : string) : option (regex * string) :=
  match s with
  | String c rest =>
      if Ascii.eqb c "*" then
        let '(g, tl) := greediness rest in Some (RRep 0 None g a, tl)
      else if Ascii.eqb c "+" then
        let '(g, tl) := greediness rest in Some (RRep 1 None g a, tl)
      else if Ascii.eqb c "?" then
        let '(g, tl) := greediness rest in Some (RRep 0 (Some 1) g a, tl)
      else if Ascii.eqb c "{" then
        '(lo, hi, s1) ← parse_bounds rest;
        let '(g, tl) := greediness s1 in Some (RRep lo hi g a, tl)
      else Some (a, s)
  | EmptyString => Some (a, s)
  end.

Definition expect (c : ascii) (s : string) : option string :=
  match s with
  | String a rest => if Ascii.eqb a c then Some rest else None
  | EmptyString => None
  end.

(** Skips the name of a named group, [(?P<name>...)]. *)
Fixpoint skip_name (s : string) : option string :=
  match s with
  | String c rest => if Ascii.eqb c ">" then Some rest else skip_name rest
  | EmptyString => None
  end.

Definition seq_end (s : string) : bool :=
  match s with
  | EmptyString => true
  | String c _ => Ascii.eqb c "|" || Ascii.eqb c ")"
  end.

(** Recursive descent; [g] counts the capture groups opened so far. *)
Fixpoint parse_alt (fuel : nat) (s : string) (g : nat)
  : option (regex * string * nat) :=
  match fuel with
  | 0 => None
  | S fuel' =>
      '(r1, s1, g1) ← parse_seq fuel' s g;
      match s1 with
      | String c s2 =>
          if Ascii.eqb c "|" then
            '(r2, s3, g2) ← parse_alt fuel' s2 g1;
            Some (RAlt r1 r2, s3, g2)
          else Some (r1, s1, g1)
      | EmptyString => Some (r1, s1, g1)
      end
  end
with parse_seq (fuel : nat) (s : string) (g : nat)
  : option (regex * string * nat) :=
  match fuel with
  | 0 => None
  | S fuel' =>
      if seq_end s then Some (REmpty, s, g)
      else
        '(a, s1, g1) ← parse_atom fuel' s g;
        '(q, s2) ← parse_quant a s1;
        '(r, s3, g2) ← parse_seq fuel' s2 g1;
        Some (RSeq q r, s3, g2)
  end
with parse_atom (fuel : nat) (s : string) (g : nat)
  : option (regex * string * nat) :=
  match fuel with
  | 0 => None
  | S fuel' =>
      match s with
      | EmptyString => None
      | String c rest =>
          if Ascii.eqb c "(" then
            if starts_with "?:" rest then
              '(r, s1, g1) ← parse_alt fuel' (drop_chars 2 rest) g;
              s2 ← expect ")" s1; Some (r, s2, g1)
            else if starts_with "?!" rest then
              '(r, s1, g1) ← parse_alt fuel' (drop_chars 2 rest) g;
              s2 ← expect ")" s1; Some (RNotAhead r, s2, g1)
            else if starts_with "?P<" rest then
              body ← skip_name (drop_chars 3 rest);
              '(r, s1, g1) ← parse_alt fuel' body (S g);
              s2 ← expect ")" s1; Some (RGroup (S g) r, s2, g1)
            else if starts_with "?" rest then None
            else
              '(r, s1, g1) ← parse_alt fuel' rest (S g);
              s2 ← expect ")" s1; Some (RGroup (S g) r, s2, g1)
          else if Ascii.eqb c "[" then
            match rest with
            | String n rest' =>
                if Ascii.eqb n "^" then
                  '(items, tl) ← parse_items rest'; Some (RSet true items, tl, g)
                else
                  '(items, tl) ← parse_items rest; Some (RSet false items, tl, g)
            | EmptyString => None
            end
          else if Ascii.eqb c "\" then
            match rest with
            | String e rest' => r ← escape e; Some (r, rest', g)
            | EmptyString => None
            end
          else if Ascii.eqb c "." then Some (RAny, rest, g)
          else if Ascii.eqb c "^" then Some (RBol, rest, g)
          else if Ascii.eqb c "*" || Ascii.eqb c "+" || Ascii.eqb c "?"
                  || Ascii.eqb c "{" || Ascii.eqb c "}" || Ascii.eqb c "$"
                  || Ascii.eqb c "]"
          then None
          else Some (RChar c, rest, g)
      end
  end.

(** [re.compile]; [None] when the pattern is outside the fragment. *)
Definition compile (p : string) : option regex :=
  match parse_alt (3 * String.length p + 3) p 0 with
  | Some (r, EmptyString, _) => Some r
  | _ => None
  end.

(** Number of capture groups. *)
Fixpoint ngroups (r : regex) : nat :=
  match r with
  | RSeq a b | RAlt a b => Nat.max (ngroups a) (ngroups b)
  | RRep _ _ _ a | RNotAhead a => ngroups a
  | RGroup n a => Nat.max n (ngroups a)
  | _ => 0
  end.

(** *** Matching *)

(** A position in the subject: the character before it, the text after it
    and the groups captured so far (most recent first). *)
Record mstate := {
  m_prev : option ascii;
  m_rest : string;
  m_caps : list (nat * string)
}.

Definition char_eq (fl : flags) (a b : ascii) : bool :=
  if ignorecase fl then Ascii.eqb (lower_char a) (lower_char b)
  else Ascii.eqb a b.

Definition item_match (c : ascii) (it : citem) : bool :=
  match it with
  | CChar a => Ascii.eqb a c
  | CRange lo hi => Nat.leb (code lo) (code c) && Nat.leb (code c) (code hi)
  | CDigit => is_digit c
  | CSpace => is_space c
  | CWord => is_word c
  end.

(** Under [IGNORECASE] a character belongs to a set when it or its other
    case does. *)
Definition set_match (fl : flags) (neg : bool) (items : list citem) (c : ascii)
  : bool :=
  xorb neg
    (existsb (item_match c) items
     || (ignorecase fl && existsb (item_match (swapcase_char c)) items)).

Definition step (st : mstate) (ok : ascii -> bool) : option mstate :=
  match m_rest st with
  | String a rest =>
      if ok a
      then Some {| m_prev := Some a; m_rest := rest; m_caps := m_caps st |}
      else None
  | EmptyString => None
  end.

Definition at_bol (fl : flags) (st : mstate) : bool :=
  match m_prev st with
  | None => true
  | Some c => multiline fl && Ascii.eqb c newline
  end.

Definition at_word_boundary (st : mstate) : bool :=
  let before := match m_prev st with Some c => is_word c | None => false end in
  let after :=
    match m_rest st with String c _ => is_word c | EmptyString => false end in
  xorb before after.

(** Text consumed between two positions of the same subject. *)
Definition consumed (st st' : mstate) : string :=
  take_chars (String.length (m_rest st) - String.length (m_rest st')) (m_rest st).

Definition advanced (st st' : mstate) : bool :=
  Nat.ltb (String.length (m_rest st')) (String.length (m_rest st)).

Definition below (hi : option nat) (n : nat) : bool :=
  match hi with
  | Some h => Nat.ltb n h
  | None => true
  end.

Definition orelse {A} (a : option A) (b : unit -> option A) : option A :=
  match a with
  | Some x => Some x
  | None => b tt
  end.

(** [exec fl r st k]: match [r] at [st] and hand every way of doing so, in
    the priority order of [re], to the continuation [k] until one is
    accepted.  A repetition runs at most [lo] iterations that consume
    nothing, so the iteration budget below is never exhausted. *)
Fixpoint exec (fl : flags) (r : regex) (st : mstate)
  (k : mstate -> option mstate) {struct r} : option mstate :=
  match r with
  | REmpty => k st
  | RChar c => st' ← step st (char_eq fl c); k st'
  | RAny => st' ← step st (fun a => negb (Ascii.eqb a newline)); k st'
  | RSet neg items => st' ← step st (set_match fl neg items); k st'
  | RBol => if at_bol fl st then k st else None
  | RWordB => if at_word_boundary st then k st else None
  | RSeq r1 r2 => exec fl r1 st (fun st' => exec fl r2 st' k)
  | RAlt r1 r2 => orelse (exec fl r1 st k) (fun _ => exec fl r2 st k)
  | RRep lo hi greedy r1 =>
      (fix loop (budget count : nat) (cur : mstate) {struct budget}
         : option mstate :=
         let stop := fun _ : unit =>
           if Nat.leb lo count then k cur else None in
         let more := fun _ : unit =>
           match budget with
           | 0 => None
           | S budget' =>
               if below hi count then
                 exec fl r1 cur (fun st' =>
                   if advanced cur st' || Nat.ltb count lo
                   then loop budget' (S count) st'
                   else None)
               else None
           end in
         if greedy then orelse (more tt) stop else orelse (stop tt) more)
        (lo + S (String.length (m_rest st))) 0 st
  | RGroup n r1 =>
      exec fl r1 st (fun st' =>
        k {| m_prev := m_prev st'; m_rest := m_rest st';
             m_caps := (n, consumed st st') :: m_caps st' |})
  | RNotAhead r1 =>
      match exec fl r1 st Some with
      | Some _ => None
      | None => k st
      end
  end.

(** Text of group [n]; a group that took no part in the match is empty. *)
Fixpoint group (caps : list (nat * string)) (n : nat) : string :=
  match caps with
  | [] => EmptyString
  | (m, s) :: caps' => if Nat.eqb m n then s else group caps' n
  end.

(** What [findall] reports for one match: the match itself, its only group,
    or the tuple of its groups when there are several. *)
Inductive found :=
| FStr (s : string)
| FTuple (g1 : string) (gs : list string).

Definition report (r : regex) (st st' : mstate) : found :=
  match ngroups r with
  | 0 => FStr (consumed st st')
  | 1 => FStr (group (m_caps st') 1)
  | S (S n) =>
      FTuple (group (m_caps st') 1) (map (group (m_caps st')) (seq 2 (S n)))
  end.

(** Left-to-right scan for non-overlapping matches.  After an empty match
    the next one found at the same place must be non-empty. *)
Fixpoint scan (budget : nat) (fl : flags) (r : regex) (prev : option ascii)
  (s : string) (must_advance : bool) : list found :=
  match budget with
  | 0 => []
  | S budget' =>
      let st := {| m_prev := prev; m_rest := s; m_caps := [] |} in
      let accept := fun st' : mstate =>
        if must_advance && negb (advanced st st') then None else Some st' in
      match exec fl r st accept with
      | Some st' =>
          report r st st'
            :: scan budget' fl r (m_prev st') (m_rest st')
                 (negb (advanced st st'))
      | None =>
          match s with
          | String c s' => scan budget' fl r (Some c) s' false
          | EmptyString => []
          end
      end
  end.

(** [re.findall(pattern, text, flags)] *)
Definition findall (pattern text : string) (fl : flags) : outcome (list found) :=
  match compile pattern with
  | Some r => Ok (scan (2 * String.length text + 2) fl r None text false)
  | None => Raise ReError
  end.

(** Replacement of every match by the literal [repl], with the scan of
    [findall]. *)
Fixpoint subst (budget : nat) (fl : flags) (r : regex) (repl : string)
  (prev : option ascii) (s : string) (must_advance : bool) : string :=
  match budget with
  | 0 => s
  | S budget' =>
      let st := {| m_prev := prev; m_rest := s; m_caps := [] |} in
      let accept := fun st' : mstate =>
        if must_advance && negb (advanced st st') then None else Some st' in
      match exec fl r st accept with
      | Some st' =>
          repl +:+ subst budget' fl r repl (m_prev st') (m_rest st')
                     (negb (advanced st st'))
      | None =>
          match s with
          | String c s' => String c (subst budget' fl r repl (Some c) s' false)
          | EmptyString => EmptyString
          end
      end
  end.

(** [re.sub(pattern, repl, text)] for a replacement without group
    references. *)
Definition sub (pattern repl text : string) : outcome string :=
  match compile pattern with
  | Some r =>
      Ok (subst (2 * String.length text + 2) no_flags r repl None text false)
  | None => Raise ReError
  end.

(** [re.match]: a match anchored at the start of [text]; returns the text
    left after the match and the groups. *)
Definition match_start (r : regex) (text : string) (fl : flags)
  : option (string * list (nat * string)) :=
  st' ← exec fl r {| m_prev := None; m_rest := text; m_caps := [] |} Some;
  Some (m_rest st', m_caps st').

End Re.

(** ** The fragment of [datetime] used by the normalizer *)

Module Datetime.
Import Py.

Record datetime := {
  year : nat; month : nat; day : nat;
  hour : nat; minute : nat; second : nat
}.

(** The directive table of [_strptime.TimeRE]. *)
Definition directive (c : ascii) : option string :=
  if Ascii.eqb c "Y" then Some "(?P<Y>\d\d\d\d)"
  else if Ascii.eqb c "m" then Some "(?P<m>1[0-2]|0[1-9]|[1-9])"
  else if Ascii.eqb c "d" then Some "(?P<d>3[0-1]|[1-2]\d|0[1-9]|[1-9]| [1-9])"
  else if Ascii.eqb c "H" then Some "(?P<H>2[0-3]|[0-1]\d|\d)"
  else if Ascii.eqb c "M" then Some "(?P<M>[0-5]\d|\d)"
  else if Ascii.eqb c "S" then Some "(?P<S>6[0-1]|[0-5]\d|\d)"
  else None.

Definition is_meta (c : ascii) : bool :=
  contains (String c EmptyString) "\.^$*+?(){}[]|".

(** [TimeRE.pattern]: metacharacters are escaped, a run of spaces becomes
    [\s+], a directive becomes its group. *)
Fixpoint pattern (after_space : bool) (fmt : string) : option string :=
  match fmt with
  | EmptyString => Some EmptyString
  | String c rest =>
      if Ascii.eqb c "%" then
        match rest with
        | String d rest' =>
            g ← directive d; tl ← pattern false rest'; Some (g +:+ tl)
        | EmptyString => None
        end
      else if is_space c then
        tl ← pattern true rest;
        Some (if after_space then tl else "\s+" +:+ tl)
      else
        tl ← pattern false rest;
        Some (if is_meta c then String "\" (String c tl) else String c tl)
  end.

(** The directives of a format, in order: directive [i] is group [i+1]. *)
Fixpoint directives (fmt : string) : list ascii :=
  match fmt with
  | String c (String d rest as tl) =>
      if Ascii.eqb c "%" then d :: directives rest
      else directives tl
  | _ => []
  end.

(** [int(s)] for a run of digits, possibly after spaces. *)
Definition int_of (s : string) : nat := fst (Re.parse_digits 0 (lstrip s)).

Fixpoint index_of (c : ascii) (l : list ascii) (i : nat) : option nat :=
  match l with
  | [] => None
  | d :: l' => if Ascii.eqb c d then Some i else index_of c l' (S i)
  end.

Definition field (caps : list (nat * string)) (ds : list ascii) (c : ascii)
  (dflt : nat) : nat :=
  match index_of c ds 1 with
  | Some i => int_of (Re.group caps i)
  | None => dflt
  end.

Definition is_leap (y : nat) : bool :=
  (Nat.eqb (y mod 4) 0 && negb (Nat.eqb (y mod 100) 0)) || Nat.eqb (y mod 400) 0.

Definition days_in_month (y m : nat) : nat :=
  match m with
  | 2 => if is_leap y then 29 else 28
  | 4 | 6 | 9 | 11 => 30
  | _ => 31
  end.

(** The range checks of the [datetime] constructor. *)
Definition valid (d : datetime) : bool :=
  Nat.leb 1 (year d) && Nat.leb (year d) 9999
  && Nat.leb 1 (month d) && Nat.leb (month d) 12
  && Nat.leb 1 (day d) && Nat.leb (day d) (days_in_month (year d) (month d))
  && Nat.leb (hour d) 23 && Nat.leb (minute d) 59 && Nat.leb (second d) 59.

(** [datetime.strptime(data, fmt)]: the format's regex must match a prefix
    of [data] and leave nothing unconverted, and the fields must form a
    date; every failure is a [ValueError]. *)
Definition strptime (data fmt : string) : outcome datetime :=
  match pattern false fmt with
  | None => Raise ValueError
  | Some p =>
      match Re.compile p with
      | None => Raise ReError
      | Some r =>
          match Re.match_start r data Re.flag_i with
          | None => Raise ValueError
          | Some (rest, caps) =>
              if truthy rest then Raise ValueError
              else
                let ds := directives fmt in
                let d := {| year := field caps ds "Y" 1900;
                            month := field caps ds "m" 1;
                            day := field caps ds "d" 1;
                            hour := field caps ds "H" 0;
                            minute := field caps ds "M" 0;
                            second := field caps ds "S" 0 |} in
                if valid d then Ok d else Raise ValueError
          end
      end
  end.

Definition decimal (n : nat) : string :=
  DecimalString.NilEmpty.string_of_uint (Nat.to_uint n).

Definition pad2 (n : nat) : string :=
  if Nat.ltb n 10 then "0" +:+ decimal n else decimal n.

(** [d.strftime(fmt)].  [%Y] is the year in decimal, as the C library of
    Linux prints it (no padding below 1000). *)
Fixpoint strftime (d : datetime) (fmt : string) : string :=
  match fmt with
  | String c (String x rest as tl) =>
      if Ascii.eqb c "%" then
        (if Ascii.eqb x "Y" then decimal (year d)
         else if Ascii.eqb x "m" then pad2 (month d)
         else if Ascii.eqb x "d" then pad2 (day d)
         else if Ascii.eqb x "H" then pad2 (hour d)
         else if Ascii.eqb x "M" then pad2 (minute d)
         else if Ascii.eqb x "S" then pad2 (second d)
         else String c (String x EmptyString)) +:+ strftime d rest
      else String c (strftime d tl)
  | _ => fmt
  end.

End Datetime.

(** ** Values and dictionaries *)

(** The Python values that occur in extraction results and database
    records. *)
Inductive pyval :=
| VNone
| VStr (s : string)
| VList (l : list string)
| VDict (d : list (string * list string)).

(** An insertion-ordered dictionary: [d[k] = v] replaces in place or
    appends. *)
Fixpoint dict_set {V} (k : string) (v : V) (d : list (string * V))
  : list (string * V) :=
  match d with
  | [] => [(k, v)]
  | (k', v') :: d' =>
      if String.eqb k k' then (k, v) :: d' else (k', v') :: dict_set k v d'
  end.

Fixpoint dict_get {V} (k : string) (d : list (string * V)) : option V :=
  match d with
  | [] => None
  | (k', v) :: d' => if String.eqb k k' then Some v else dict_get k d'
  end.

(** [d[k]] on a [gmap] dictionary *)
Definition getitem {V} (d : gmap string V) (k : string) : outcome V :=
  match d !! k with
  | Some v => Ok v
  | None => Raise KeyError
  end.

(** [k in d] *)
Definition has_key {V} (d : gmap string V) (k : string) : bool :=
  match d !! k with
  | Some _ => true
  | None => false
  end.

(** ** The extractor *)

Module SmartContentExtractor.
Import Py.

(** [self.patterns], in the order of the source. *)
Definition patterns : list (string * list string) :=
  [ ("classification",
      [ "Classification:\s*([A-Z//\s]+)";
        "CLASSIFICATION:\s*([A-Z//\s]+)";
        "(?:^|\n)\s*([A-Z]+//[A-Z\s/]+)";
        "(?:^|\n)\s*(UNCLASSIFIED|CONFIDENTIAL|SECRET|TOP\s*SECRET)(?://[A-Z\s/]+)?" ]);
    ("date_time",
      [ "Date[/\s]*Time[^:]*:\s*([^\n]+)";
        "Date:\s*([^\n]+)";
        "Time:\s*([^\n]+)";
        "(\d{4}-\d{2}-\d{2}[\sT]\d{2}:\d{2}:\d{2})";
        "(\d{1,2}/\d{1,2}/\d{4})";
        "(\d{1,2}-\d{1,2}-\d{4})" ]);
    ("unit",
      [ "Reporting\s+Unit:\s*([^\n]+)";
        "Unit:\s*([^\n]+)";
        "From:\s*([^\n]+)";
        "(\d+(?:st|nd|rd|th)\s+[A-Za-z\s]+(?:Battalion|Regiment|Division|Detachment|Company|Brigade))";
        "([A-Z]+\s+\d+[A-Z]*)" ]);
    ("location_mgrs",
      [ "Location[^:]*MGRS[^:]*:\s*([A-Z0-9\s]+)";
        "MGRS[^:]*:\s*([A-Z0-9\s]+)";
        "Grid[^:]*:\s*([A-Z0-9\s]+)";
        "\b(\d{1,2}[A-Z]{3}\d{4,10})\b" ]);
    ("location_name",
      [ "Location[^:]*:\s*([^(\n]+)(?:\([^)]*\))?";
        "Area[^:]*:\s*([^\n]+)";
        "Region[^:]*:\s*([^\n]+)";
        "(?:near|at|in)\s+([A-Z][a-z]+(?:\s+[A-Z][a-z]+)*)" ]);
    ("analyst",
      [ "Analyst:\s*([^\n]+)";
        "Prepared\s+by:\s*([^\n]+)";
        "Author:\s*([^\n]+)";
        "By:\s*([A-Z]\.\s*[A-Z][a-z]+)" ]);
    ("summary",
      [ "Executive\s+Summary[:\s]*\n([^\n]+(?:\n(?![\w\s]*:)[^\n]*)*)";
        "Summary[:\s]*\n([^\n]+(?:\n(?![\w\s]*:)[^\n]*)*)";
        "SUMMARY[:\s]*\n([^\n]+(?:\n(?![\w\s]*:)[^\n]*)*)" ]);
    ("assessment",
      [ "Assessment[:\s]*\n([^\n]+(?:\n(?![\w\s]*:)[^\n]*)*)";
        "Analysis[:\s]*\n([^\n]+(?:\n(?![\w\s]*:)[^\n]*)*)";
        "Conclusion[:\s]*\n([^\n]+(?:\n(?![\w\s]*:)[^\n]*)*)" ]);
    ("recommendations",
      [ "Recommendations?[:\s]*\n((?:\d+\..*?\n?)*)";
        "Actions?[:\s]*\n((?:\d+\..*?\n?)*)";
        "Next\s+Steps[:\s]*\n((?:\d+\..*?\n?)*)" ]);
    ("confidence",
      [ "(High|Medium|Moderate|Low)\s+confidence";
        "Confidence:\s*([^\n]+)";
        "Reliability:\s*([^\n]+)" ]);
    ("source_type",
      [ "(HUMINT|SIGINT|IMINT|GEOINT|OSINT|UAV|ELINT)";
        "Source:\s*([^\n]+)";
        "Intel\s+Type:\s*([^\n]+)" ]) ].

(** The eleven field types. *)
Definition field_types : list string := map fst patterns.

(** The (input, output) format pairs of [parse_datetime]. *)
Definition date_formats : list (string * string) :=
  [ ("%Y-%m-%d %H:%M:%S", "%Y-%m-%d %H:%M:%S");
    ("%Y-%m-%d", "%Y-%m-%d");
    ("%m/%d/%Y", "%Y-%m-%d");
    ("%d/%m/%Y", "%Y-%m-%d");
    ("%m-%d-%Y", "%Y-%m-%d");
    ("%d-%m-%Y", "%Y-%m-%d") ].

(** The loop of [parse_datetime]: the first format that parses wins,
    [ValueError] moves on to the next, anything else escapes. *)
Fixpoint try_formats (date_str : string) (fmts : list (string * string))
  : outcome string :=
  match fmts with
  | [] => Ok date_str
  | (input_pattern, output_pattern) :: fmts' =>
      match Datetime.strptime date_str input_pattern with
      | Ok parsed => Ok (Datetime.strftime parsed output_pattern)
      | Raise ValueError => try_formats date_str fmts'
      | Raise e => Raise e
      end
  end.

Definition parse_datetime (date_str : string) : outcome string :=
  try_formats (strip date_str) date_formats.

(** [self.cleaners] *)
Definition cleaners : list (string * (string -> outcome string)) :=
  [ ("classification", fun x => Ok (upper (strip x)));
    ("date_time", parse_datetime);
    ("location_mgrs", fun x => Re.sub "\s+" "" (upper x));
    ("location_name", fun x => Ok (title (strip x)));
    ("analyst", fun x => Ok (title (strip x)));
    ("confidence", fun x => Ok (title (strip x)));
    ("source_type", fun x => Ok (upper (strip x))) ].

Definition py_max (a b : float) : float := if PrimFloat.ltb a b then b else a.
Definition py_min (a b : float) : float := if PrimFloat.ltb b a then b else a.

Definition calculate_confidence (field_type value full_text : string) : float :=
  let confidence := 0.5%float in
  let confidence :=
    if String.eqb field_type "classification"
       && contains "classification:" (lower full_text)
    then (confidence + 0.3)%float
    else if String.eqb field_type "date_time"
            && any_in ["date"; "time"] (lower full_text)
    then (confidence + 0.2)%float
    else if String.eqb field_type "unit" && contains "unit" (lower full_text)
    then (confidence + 0.3)%float
    else if String.eqb field_type "location_mgrs"
            && contains "mgrs" (lower full_text)
    then (confidence + 0.4)%float
    else confidence in
  let confidence :=
    if Nat.ltb (String.length value) 3 then (confidence - 0.2)%float
    else confidence in
  py_min 1.0%float (py_max 0.1%float confidence).

Definition classify_document_type (text : string) : string :=
  let text_lower := lower text in
  if any_in ["intelligence"; "intel"; "assessment"; "analysis"] text_lower then
    if any_in ["summary"; "sitrep"; "situation"] text_lower
    then "intelligence_summary"
    else if any_in ["assessment"; "analysis"] text_lower
    then "intelligence_assessment"
    else "intelligence_report"
  else if any_in ["patrol"; "mission"; "operation"] text_lower
  then "mission_report"
  else if any_in ["incident"; "event"; "contact"] text_lower
  then "incident_report"
  else if any_in ["brief"; "briefing"] text_lower
  then "briefing"
  else "general_document".

(** The [extraction_metadata] dictionary; the two statistics are added by
    [post_process_extractions]. *)
Record metadata := {
  filename : string;
  extraction_time : string;
  text_length : nat;
  fields_found : option nat;
  avg_confidence : option float
}.

(** The dictionary built by [extract_structured_data]. *)
Record extraction := {
  raw_extractions : gmap string (list string);
  structured_fields : gmap string pyval;
  confidence_scores : list (string * float);
  document_type : string;
  extraction_metadata : metadata
}.

(** [re.findall] over the patterns of one field type, results
    concatenated in pattern order. *)
Fixpoint find_matches (pats : list string) (text : string)
  : outcome (list Re.found) :=
  match pats with
  | [] => Ok []
  | pattern :: pats' =>
      found ← Re.findall pattern text Re.flag_im;
      rest ← find_matches pats' text;
      Ok (found ++ rest)
  end.

(** [match[0] if match[0] else (match[1] if len(match) > 1 else ""] for a
    tuple, the match itself otherwise. *)
Definition untuple (m : Re.found) : string :=
  match m with
  | Re.FStr s => s
  | Re.FTuple g1 gs =>
      if truthy g1 then g1
      else match gs with
           | g2 :: _ => g2
           | [] => EmptyString
           end
  end.

Definition mem (x : string) (l : list string) : bool :=
  existsb (String.eqb x) l.

Definition clean (field_type : string) (m : string) : outcome string :=
  match dict_get field_type cleaners with
  | Some cleaner => cleaner m
  | None => Ok (strip m)
  end.

(** The cleaning and deduplication loop. *)
Fixpoint clean_matches (field_type : string) (matches : list Re.found)
  (cleaned : list string) : outcome (list string) :=
  match matches with
  | [] => Ok cleaned
  | m :: matches' =>
      m' ← clean field_type (untuple m);
      if truthy m' && negb (mem m' cleaned)
      then clean_matches field_type matches' (cleaned ++ [m'])
      else clean_matches field_type matches' cleaned
  end.

(** One iteration of the loop over [self.patterns.items()]. *)
Definition extract_field (text : string) (extracted : extraction)
  (entry : string * list string) : outcome extraction :=
  let '(field_type, pats) := entry in
  matches ← find_matches pats text;
  match matches with
  | [] => Ok extracted
  | _ :: _ =>
      cleaned ← clean_matches field_type matches [];
      let raw := <[field_type := cleaned]> (raw_extractions extracted) in
      match cleaned with
      | [] =>
          Ok {| raw_extractions := raw;
                structured_fields := structured_fields extracted;
                confidence_scores := confidence_scores extracted;
                document_type := document_type extracted;
                extraction_metadata := extraction_metadata extracted |}
      | best :: _ =>
          Ok {| raw_extractions := raw;
                structured_fields :=
                  <[field_type := VStr best]> (structured_fields extracted);
                confidence_scores :=
                  dict_set field_type
                    (calculate_confidence field_type best text)
                    (confidence_scores extracted);
                document_type := document_type extracted;
                extraction_metadata := extraction_metadata extracted |}
      end
  end.

Fixpoint extract_fields (text : string) (extracted : extraction)
  (entries : list (string * list string)) : outcome extraction :=
  match entries with
  | [] => Ok extracted
  | entry :: entries' =>
      extracted' ← extract_field text extracted entry;
      extract_fields text extracted' entries'
  end.

Definition theme_keywords : list (string * list string) :=
  [ ("security", ["security"; "threat"; "hostile"; "enemy"; "insurgent"]);
    ("logistics", ["supply"; "resupply"; "convoy"; "logistics"; "equipment"]);
    ("surveillance", ["uav"; "surveillance"; "observation"; "monitoring"; "isr"]);
    ("communications", ["comms"; "radio"; "frequency"; "signal"; "transmission"]);
    ("movement", ["movement"; "patrol"; "vehicle"; "activity"; "formation"]);
    ("intelligence", ["intel"; "humint"; "sigint"; "imint"; "analysis"]) ].

Definition extract_themes (text : string) : list string :=
  let text_lower := lower text in
  let themes :=
    map fst (filter (fun '(theme, keywords) => any_in keywords text_lower = true)
                    theme_keywords) in
  take 5 themes.

Definition people_patterns : list string :=
  [ "\b[A-Z]\.\s*[A-Z][a-z]+\b";
    "\b(?:Analyst|Officer|Commander|Agent):\s*([A-Z][a-z]+(?:\s+[A-Z][a-z]+)*)" ].

Definition place_patterns : list string :=
  [ "(?:Highway|Route|Road)\s+(\d+)";
    "(?:near|at|in)\s+([A-Z][a-z]+(?:\s+[A-Z][a-z]+)?)" ].

Definition equipment_patterns : list string :=
  [ "\b(UAV|UAS|drone)s?\b";
    "\b(\d+\.\d+\s*MHz)\b";
    "\b(thermal\s+imagery|night\s+vision|radio)\b" ].

(** [entities[key].extend(matches)] *)
Definition dict_extend {V} (key : string) (more : list V)
  (d : list (string * list V)) : outcome (list (string * list V)) :=
  match dict_get key d with
  | Some l => Ok (dict_set key (l ++ more) d)
  | None => Raise KeyError
  end.

(** [for pattern in pats: entities[key].extend(re.findall(...))] *)
Fixpoint mine (pats : list string) (text : string) (fl : Re.flags)
  (key : string) (entities : list (string * list Re.found))
  : outcome (list (string * list Re.found)) :=
  match pats with
  | [] => Ok entities
  | pattern :: pats' =>
      matches ← Re.findall pattern text fl;
      entities' ← dict_extend key matches entities;
      mine pats' text fl key entities'
  end.

(** [e.strip()]; only a string has the method. *)
Definition strip_found (e : Re.found) : outcome string :=
  match e with
  | Re.FStr s => Ok (strip s)
  | Re.FTuple _ _ => Raise AttributeError
  end.

(** [list(set([e.strip() for e in l if e.strip()]))[:5]].  Python leaves the
    iteration order of a set unspecified; the model takes the order of
    [elements]. *)
Definition dedup (l : list Re.found) : outcome (list string) :=
  stripped ← rmapM strip_found l;
  let kept := filter (fun e => truthy e = true) stripped in
  Ok (take 5 (elements (list_to_set kept : gset string))).

Fixpoint dedup_all (entities : list (string * list Re.found))
  : outcome (list (string * list string)) :=
  match entities with
  | [] => Ok []
  | (entity_type, l) :: entities' =>
      l' ← dedup l;
      rest ← dedup_all entities';
      Ok ((entity_type, l') :: rest)
  end.

Definition extract_entities (text : string)
  : outcome (list (string * list string)) :=
  let entities : list (string * list Re.found) :=
    [ ("people", []); ("places", []); ("organizations", []);
      ("equipment", []) ] in
  entities ← mine people_patterns text Re.no_flags "people" entities;
  entities ← mine place_patterns text Re.no_flags "places" entities;
  entities ← mine equipment_patterns text Re.flag_i "equipment" entities;
  dedup_all entities.

(** [float(n)] for a length *)
Definition float_of_nat (n : nat) : float :=
  PrimFloat.of_uint63 (Uint63.of_Z (Z.of_nat n)).

(** [sum(d.values()) / len(d)]: the sum starts from 0 and adds the values
    from left to right in insertion order. *)
Definition mean (scores : list (string * float)) : outcome float :=
  match scores with
  | [] => Raise ZeroDivisionError
  | _ :: _ =>
      Ok (fold_left PrimFloat.add (map snd scores) 0%float
          / float_of_nat (length scores))%float
  end.

Definition post_process_extractions (extracted : extraction) (text : string)
  : outcome extraction :=
  let raw := raw_extractions extracted in
  fields ←
    (if has_key (structured_fields extracted) "date_time"
     then Ok (structured_fields extracted)
     else
       date_parts ←
         (if has_key raw "date"
          then d ← getitem raw "date"; Ok ([] ++ d) else Ok []);
       date_parts ←
         (if has_key raw "time"
          then t ← getitem raw "time"; Ok (date_parts ++ t)
          else Ok date_parts);
       match date_parts with
       | [] => Ok (structured_fields extracted)
       | _ :: _ =>
           let combined := join " " (take 2 date_parts) in
           parsed ← parse_datetime combined;
           Ok (<["date_time" := VStr parsed]> (structured_fields extracted))
       end);
  let fields := <["key_themes" := VList (extract_themes text)]> fields in
  entities ← extract_entities text;
  let fields := <["entities" := VDict entities]> fields in
  avg ←
    (match confidence_scores extracted with
     | [] => Ok 0.0%float
     | _ :: _ => mean (confidence_scores extracted)
     end);
  Ok {| raw_extractions := raw;
        structured_fields := fields;
        confidence_scores := confidence_scores extracted;
        document_type := document_type extracted;
        extraction_metadata :=
          {| filename := filename (extraction_metadata extracted);
             extraction_time := extraction_time (extraction_metadata extracted);
             text_length := text_length (extraction_metadata extracted);
             fields_found := Some (size fields);
             avg_confidence := Some avg |} |}.

(** [extract_structured_data(text, filename)]; [now] is the reading of the
    clock, [datetime.now().isoformat()]. *)
Definition extract_structured_data (now : string) (text filename : string)
  : outcome extraction :=
  let extracted :=
    {| raw_extractions := ∅;
       structured_fields := ∅;
       confidence_scores := [];
       document_type := classify_document_type text;
       extraction_metadata :=
         {| filename := filename;
            extraction_time := now;
            text_length := String.length text;
            fields_found := None;
            avg_confidence := None |} |} in
  extracted ← extract_fields text extracted patterns;
  post_process_extractions extracted text.

(** *** Mapping to the database record *)

Definition truthy_val (v : pyval) : bool :=
  match v with
  | VNone => false
  | VStr s => truthy s
  | VList l => match l with [] => false | _ => true end
  | VDict d => match d with [] => false | _ => true end
  end.

Definition squote : ascii := ascii_of_nat 39.
Definition dquote : ascii := ascii_of_nat 34.
Definition backslash : ascii := ascii_of_nat 92.

Definition hex_digit (n : nat) : ascii :=
  if Nat.ltb n 10 then ascii_of_nat (48 + n) else ascii_of_nat (87 + n).

(** One character of [repr(s)], inside the quotes [q]. *)
Definition repr_char (q c : ascii) : string :=
  if Ascii.eqb c q || Ascii.eqb c backslash
  then String backslash (String c EmptyString)
  else if Nat.eqb (code c) 9 then "\t"
  else if Nat.eqb (code c) 10 then "\n"
  else if Nat.eqb (code c) 13 then "\r"
  else if Nat.ltb (code c) 32 || Nat.eqb (code c) 127
          || between 128 160 c || Nat.eqb (code c) 173
  then "\x" +:+ String (hex_digit (code c / 16))
                  (String (hex_digit (code c mod 16)) EmptyString)
  else String c EmptyString.

Fixpoint repr_chars (q : ascii) (s : string) : string :=
  match s with
  | EmptyString => EmptyString
  | String c s' => repr_char q c +:+ repr_chars q s'
  end.

(** [repr(s)]: single quotes unless the string has one and no double
    quote. *)
Definition repr_str (s : string) : string :=
  let q :=
    if contains (String squote EmptyString) s
       && negb (contains (String dquote EmptyString) s)
    then dquote else squote in
  String q (repr_chars q s +:+ String q EmptyString).

Definition repr_list (l : list string) : string :=
  "[" +:+ join ", " (map repr_str l) +:+ "]".

Definition repr_dict (d : list (string * list string)) : string :=
  "{" +:+ join ", " (map (fun '(k, l) => repr_str k +:+ ": " +:+ repr_list l) d)
      +:+ "}".

(** [str(v)] *)
Definition py_str (v : pyval) : string :=
  match v with
  | VNone => "None"
  | VStr s => s
  | VList l => repr_list l
  | VDict d => repr_dict d
  end.

(** ['|'.join(v)]: the items of a list, the characters of a string, the
    keys of a dictionary. *)
Definition pipe_join (v : pyval) : outcome string :=
  match v with
  | VList l => Ok (join "|" l)
  | VStr s => Ok (join "|" (chars s))
  | VDict d => Ok (join "|" (map fst d))
  | VNone => Raise TypeError
  end.

(** [x in y] *)
Definition py_in (x y : pyval) : outcome bool :=
  match y with
  | VStr e =>
      match x with
      | VStr n => Ok (contains n e)
      | _ => Raise TypeError
      end
  | VList l =>
      match x with
      | VStr n => Ok (mem n l)
      | _ => Ok false
      end
  | VDict d =>
      match x with
      | VStr n => Ok (mem n (map fst d))
      | VNone => Ok false
      | VList _ | VDict _ => Raise TypeError
      end
  | VNone => Raise TypeError
  end.

Definition field_mapping : list (string * string) :=
  [ ("classification", "highest_classification");
    ("date_time", "timeframes");
    ("location_name", "locations");
    ("unit", "subjects");
    ("key_themes", "topics");
    ("analyst", "caveats") ].

(** One iteration of the loop over [field_mapping.items()]. *)
Definition map_field (structured result : gmap string pyval)
  (entry : string * string) : outcome (gmap string pyval) :=
  let '(extracted_field, db_field) := entry in
  if has_key structured extracted_field then
    v ← getitem structured extracted_field;
    if truthy_val v then
      if String.eqb extracted_field "key_themes"
      then joined ← pipe_join v; Ok (<[db_field := VStr joined]> result)
      else Ok (<[db_field := VStr (py_str v)]> result)
    else Ok result
  else Ok result.

Fixpoint map_fields (structured result : gmap string pyval)
  (entries : list (string * string)) : outcome (gmap string pyval) :=
  match entries with
  | [] => Ok result
  | entry :: entries' =>
      result' ← map_field structured result entry;
      map_fields structured result' entries'
  end.

(** The MGRS block. *)
Definition enhance_mgrs (structured result : gmap string pyval)
  : outcome (gmap string pyval) :=
  if has_key structured "location_mgrs" then
    let existing_mgrs := default (VStr "") (result !! "MGRS") in
    new_mgrs ← getitem structured "location_mgrs";
    if truthy_val existing_mgrs then
      inside ← py_in new_mgrs existing_mgrs;
      if negb inside
      then Ok (<["MGRS" :=
                   VStr (py_str existing_mgrs +:+ "|" +:+ py_str new_mgrs)]>
                 result)
      else Ok result
    else Ok (<["MGRS" := new_mgrs]> result)
  else Ok result.

Section Database.

(** [json.dumps] of the metadata dictionary with the keys [document_type],
    [confidence_scores], [entities] and [extraction_time]. *)
Variable json_dumps :
  string -> list (string * float) -> pyval -> string -> string.

Definition format_for_database (extracted_data : extraction)
  (original_fields : gmap string pyval) : outcome (gmap string pyval) :=
  let result := original_fields in
  let structured := structured_fields extracted_data in
  result ← map_fields structured result field_mapping;
  result ← enhance_mgrs structured result;
  Ok (<["extraction_metadata" :=
          VStr (json_dumps
                  (document_type extracted_data)
                  (confidence_scores extracted_data)
                  (default (VDict []) (structured_fields extracted_data !! "entities"))
                  (extraction_time (extraction_metadata extracted_data)))]>
        result).

End Database.

End SmartContentExtractor.

(** ** Notions used in the statements *)

Import Py SmartContentExtractor.

(** The pattern is in the modelled fragment of [re]. *)
Definition compiles (p : string) : bool :=
  match Re.compile p with
  | Some _ => true
  | None => false
  end.

(** The pattern compiles and has at most one capture group, so that
    [findall] reports strings. *)
Definition single_group (p : string) : bool :=
  match Re.compile p with
  | Some r => Nat.leb (Re.ngroups r) 1
  | None => false
  end.

Definition is_str (m : Re.found) : Prop :=
  match m with
  | Re.FStr _ => True
  | Re.FTuple _ _ => False
  end.

(** Every pooled match of every entity category is a string. *)
Definition all_strings (d : list (string * list Re.found)) : Prop :=
  Forall (fun entry => Forall is_str (snd entry)) d.

(** What the field loop computes for one registry entry: [None] when no
    pattern matches, the cleaned candidates otherwise. *)
Definition candidates (text : string) (entry : string * list string)
  : outcome (option (list string)) :=
  matches ← find_matches (snd entry) text;
  match matches with
  | [] => Ok None
  | _ :: _ =>
      cleaned ← clean_matches (fst entry) matches []; Ok (Some cleaned)
  end.

(** The candidate selected from a field's outcome, if any. *)
Definition selected (c : option (list string)) : option string :=
  match c with
  | Some (best :: _) => Some best
  | _ => None
  end.

(** The extraction before the loop. *)
Definition initial (now text filename : string) : extraction :=
  {| raw_extractions := ∅;
     structured_fields := ∅;
     confidence_scores := [];
     document_type := classify_document_type text;
     extraction_metadata :=
       {| filename := filename;
          extraction_time := now;
          text_length := String.length text;
          fields_found := None;
          avg_confidence := None |} |}.

(** The arithmetic mean of the scores, [0.0] when there is none. *)
Definition average (scores : list (string * float)) : float :=
  match scores with
  | [] => 0.0%float
  | _ :: _ =>
      (fold_left PrimFloat.add (map snd scores) 0%float
       / float_of_nat (length scores))%float
  end.

(** The extraction after post-processing, given the state [e] left by the
    loop and the mined entities. *)
Definition finished (e : extraction) (text : string)
  (ents : list (string * list string)) : extraction :=
  let fields :=
    <["entities" := VDict ents]>
      (<["key_themes" := VList (extract_themes text)]> (structured_fields e)) in
  {| raw_extractions := raw_extractions e;
     structured_fields := fields;
     confidence_scores := confidence_scores e;
     document_type := document_type e;
     extraction_metadata :=
       {| filename := filename (extraction_metadata e);
          extraction_time := extraction_time (extraction_metadata e);
          text_length := text_length (extraction_metadata e);
          fields_found := Some (size fields);
          avg_confidence := Some (average (confidence_scores e)) |} |}.

(** The format has only modelled directives and its regex compiles. *)
Definition format_ok (fmt : string) : bool :=
  match Datetime.pattern false fmt with
  | Some p => compiles p
  | None => false
  end.

(** [strptime] accepts the string under the format. *)
Definition parses (data fmt : string) : bool :=
  match Datetime.strptime data fmt with
  | Ok _ => true
  | Raise _ => false
  end.

(** The labels [classify_document_type] can return. *)
Definition document_types : list string :=
  [ "intelligence_summary"; "intelligence_assessment"; "intelligence_report";
    "mission_report"; "incident_report"; "briefing"; "general_document" ].

(** The keyword priority order of the classifier, rule by rule: a label is
    assigned by the first rule whose keywords occur in the lower-cased text. *)
Inductive labelled (s : string) : string -> Prop :=
| labelled_summary :
    any_in ["intelligence"; "intel"; "assessment"; "analysis"] s = true ->
    any_in ["summary"; "sitrep"; "situation"] s = true ->
    labelled s "intelligence_summary"
| labelled_assessment :
    any_in ["intelligence"; "intel"; "assessment"; "analysis"] s = true ->
    any_in ["summary"; "sitrep"; "situation"] s = false ->
    any_in ["assessment"; "analysis"] s = true ->
    labelled s "intelligence_assessment"
| labelled_report :
    any_in ["intelligence"; "intel"; "assessment"; "analysis"] s = true ->
    any_in ["summary"; "sitrep"; "situation"] s = false ->
    any_in ["assessment"; "analysis"] s = false ->
    labelled s "intelligence_report"
| labelled_mission :
    any_in ["intelligence"; "intel"; "assessment"; "analysis"] s = false ->
    any_in ["patrol"; "mission"; "operation"] s = true ->
    labelled s "mission_report"
| labelled_incident :
    any_in ["intelligence"; "intel"; "assessment"; "analysis"] s = false ->
    any_in ["patrol"; "mission"; "operation"] s = false ->
    any_in ["incident"; "event"; "contact"] s = true ->
    labelled s "incident_report"
| labelled_briefing :
    any_in ["intelligence"; "intel"; "assessment"; "analysis"] s = false ->
    any_in ["patrol"; "mission"; "operation"] s = false ->
    any_in ["incident"; "event"; "contact"] s = false ->
    any_in ["brief"; "briefing"] s = true ->
    labelled s "briefing"
| labelled_general :
    any_in ["intelligence"; "intel"; "assessment"; "analysis"] s = false ->
    any_in ["patrol"; "mission"; "operation"] s = false ->
    any_in ["incident"; "event"; "contact"] s = false ->
    any_in ["brief"; "briefing"] s = false ->
    labelled s "general_document".

(** [0.1 <= c <= 1.0] *)
Definition in_score_range (c : float) : bool :=
  PrimFloat.leb 0.1%float c && PrimFloat.leb c 1.0%float.

(** The database columns [format_for_database] may write. *)
Definition written_columns : list string :=
  [ "highest_classification"; "timeframes"; "locations"; "subjects";
    "topics"; "caveats"; "MGRS"; "extraction_metadata" ].

(** A value the MGRS block can compare: a string, [None], or no value. *)
Definition str_or_none (v : option pyval) : bool :=
  match v with
  | None | Some VNone | Some (VStr _) => true
  | Some (VList _) | Some (VDict _) => false
  end.

(** The text an overlay writes for a structured value: the pipe-joined
    themes for [key_themes], [str] of the value otherwise. *)
Definition mapped_value (extracted_field : string) (v : pyval) : string :=
  if String.eqb extracted_field "key_themes" then
    match v with
    | VList l => join "|" l
    | VStr s => join "|" (chars s)
    | VDict d => join "|" (map fst d)
    | VNone => ""
    end
  else py_str v.

(** The column an overlay leaves behind, given the structured value and the
    column before. *)
Definition overlaid (extracted_field : string) (v before : option pyval)
  : option pyval :=
  match v with
  | Some x =>
      if truthy_val x then Some (VStr (mapped_value extracted_field x))
      else before
  | None => before
  end.

(** The MGRS merge rule for an extracted string [new]: keep an existing text
    that already contains it, append it to any other non-empty text, adopt it
    when nothing is there. *)
Definition merged (existing : option pyval) (new : string) : string :=
  match existing with
  | Some (VStr ex) =>
      if truthy ex
      then if contains new ex then ex else ex +:+ "|" +:+ new
      else new
  | _ => new
  end.

(** The MGRS block compares without a type error: nothing was extracted, or
    a string meets a column that is a string, [None] or missing. *)
Definition mgrs_comparable (e : extraction) (original : gmap string pyval)
  : bool :=
  match structured_fields e !! "location_mgrs" with
  | None => true
  | Some (VStr _) => str_or_none (original !! "MGRS")
  | Some _ => false
  end.

(** A serializer standing for [json.dumps] where a statement is
    instantiated on concrete records. *)
Definition sample_dumps (document_type : string)
  (scores : list (string * float)) (entities : pyval)
  (extraction_time : string) : string :=
  "{" +:+ document_type +:+ "@" +:+ extraction_time +:+ "}".

(** An extraction result whose only structured field is an MGRS string. *)
Definition with_mgrs (new : string) : extraction :=
  {| raw_extractions := {[ "location_mgrs" := [new] ]};
     structured_fields := {[ "location_mgrs" := VStr new ]};
     confidence_scores := [("location_mgrs", 0.5%float)];
     document_type := "general_document";
     extraction_metadata :=
       {| filename := "";
          extraction_time := "";
          text_length := 0;
          fields_found := Some 1;
          avg_confidence := Some 0.5%float |} |}.

(** A text given line by line. *)
Definition lines (l : list string) : string :=
  join (String newline EmptyString) l.

(** The entity map of an empty document. *)
Definition no_entities : list (string * list string) :=
  [ ("people", []); ("places", []); ("organizations", []); ("equipment", []) ].

(** The candidate the field loop selects for a registry entry, read off the
    text: the first cleaned candidate, if there is one. *)
Definition chosen (text : string) (entry : string * list string)
  : option string :=
  match candidates text entry with
  | Ok c => selected c
  | Raise _ => None
  end.

(** The populated field types of a text with their selected values, in
    registry order. *)
Definition populated_of (text : string)
  (entries : list (string * list string)) : list (string * string) :=
  omap (fun entry => pair (fst entry) <$> chosen text entry) entries.

Definition populated (text : string) : list (string * string) :=
  populated_of text patterns.

(** The score of each populated field type. *)
Definition scored (text : string) (fields : list (string * string))
  : list (string * float) :=
  map (fun f => (fst f, calculate_confidence (fst f) (snd f) text)) fields.

(** The arithmetic mean of a list of numbers: their sum, taken from left to
    right, over their number; [0.0] for no number. *)
Definition total (xs : list float) : float :=
  fold_left PrimFloat.add xs 0%float.

Definition arithmetic_mean (xs : list float) : float :=
  if decide (xs = []) then 0.0%float
  else (total xs / float_of_nat (length xs))%float.

(** The structured values that Python counts as true. *)
Definition truthy_values (fields : gmap string pyval) : list pyval :=
  filter (fun v => truthy_val v = true) (snd <$> map_to_list fields).

(** * Properties *)

Arguments Re.findall : simpl never.
Arguments Re.sub : simpl never.
Arguments Datetime.strptime : simpl never.
Arguments Datetime.strftime : simpl never.
Arguments calculate_confidence : simpl never.
Arguments extract_themes : simpl never.

(** Splits an equation [x ← m; k = Ok r] into the two steps. *)
Lemma bind_Ok {A B} (m : outcome A) (k : A -> outcome B) (b : B) :
  (m ≫= k) = Ok b -> exists a, m = Ok a /\ k a = Ok b.
Proof.
  destruct m as [a|e]; simpl; intros H; [eauto | discriminate].
Qed.

Lemma bind_Ok_l {A B} (a : A) (k : A -> outcome B) : (Ok a ≫= k) = k a.
Proof. reflexivity. Qed.

Lemma bind_returns {A B} (m : outcome A) (k : A -> outcome B) :
  returns m -> (forall a, returns (k a)) -> returns (m ≫= k).
Proof.
  intros [a ->] Hk. simpl. apply Hk.
Qed.

Ltac bind_inv H :=
  let a := fresh "a" in
  let Ha := fresh "Ha" in
  apply bind_Ok in H; destruct H as (a & Ha & H).

(** ** Strings *)

Section StringFacts.

Lemma app_cons_s (x : ascii) (a b : string) :
  String x a +:+ b = String x (a +:+ b).
Proof. reflexivity. Qed.

Lemma app_nil_l_s (a : string) : "" +:+ a = a.
Proof. reflexivity. Qed.

Lemma app_assoc_s (a b c : string) : (a +:+ b) +:+ c = a +:+ (b +:+ c).
Proof.
  induction a as [|x a IH]; [reflexivity|].
  rewrite !app_cons_s. now rewrite IH.
Qed.

Lemma app_nil_r_s (a : string) : a +:+ "" = a.
Proof.
  induction a as [|x a IH]; [reflexivity | now rewrite app_cons_s, IH].
Qed.

Lemma starts_with_spec (p s : string) :
  starts_with p s = true <-> exists b, s = p +:+ b.
Proof.
  revert s. induction p as [|x p IH]; intros s; simpl.
  - split; [intros _; now exists s | reflexivity].
  - destruct s as [|y s].
    + split; [discriminate | intros [b Hb]; discriminate].
    + rewrite andb_true_iff, Ascii.eqb_eq, IH. split.
      * intros [-> [b ->]]. now exists b.
      * intros [b Hb]. rewrite app_cons_s in Hb. injection Hb as -> ->. eauto.
Qed.

Lemma contains_spec (p s : string) :
  contains p s = true <-> exists a b, s = a +:+ p +:+ b.
Proof.
  induction s as [|y s IH].
  - simpl. rewrite orb_false_r, starts_with_spec. split.
    + intros [b Hb]. now exists "", b.
    + intros (a & b & Hab). destruct a; [now exists b | discriminate].
  - simpl. rewrite orb_true_iff, starts_with_spec, IH. split.
    + intros [[b Hb] | (a & b & Hab)].
      * now exists "", b.
      * exists (String y a), b. rewrite app_cons_s. now rewrite Hab.
    + intros (a & b & Hab). destruct a as [|x a].
      * left. now exists b.
      * right. rewrite app_cons_s in Hab. injection Hab as -> ->.
        now exists a, b.
Qed.

Lemma smap_app (f : ascii -> ascii) (a b : string) :
  smap f (a +:+ b) = smap f a +:+ smap f b.
Proof.
  induction a as [|x a IH]; [reflexivity|].
  rewrite app_cons_s. simpl. now rewrite IH, app_cons_s.
Qed.

(** Lower-casing preserves occurrences. *)
Lemma contains_lower (p s : string) :
  contains p s = true -> contains (lower p) (lower s) = true.
Proof.
  rewrite !contains_spec. intros (a & b & ->).
  exists (lower a), (lower b). unfold lower. now rewrite !smap_app.
Qed.

(** An occurrence of a string is an occurrence of each of its parts. *)
Lemma contains_part (a p b s : string) :
  contains (a +:+ p +:+ b) s = true -> contains p s = true.
Proof.
  rewrite !contains_spec. intros (a' & b' & ->).
  exists (a' +:+ a), (b +:+ b'). now rewrite !app_assoc_s.
Qed.

Lemma contains_appended (e sep n : string) :
  contains n (e +:+ sep +:+ n) = true.
Proof.
  apply contains_spec. exists (e +:+ sep), "".
  now rewrite app_nil_r_s, app_assoc_s.
Qed.

Lemma contains_self (n : string) : contains n n = true.
Proof.
  apply contains_spec. exists "", "". now rewrite app_nil_r_s.
Qed.

Lemma lstrip_fixed (s : string) :
  match s with String c _ => is_space c = false | EmptyString => True end ->
  lstrip s = s.
Proof. destruct s as [|c s]; simpl; [reflexivity | now intros ->]. Qed.

Lemma lstrip_no_lead (s : string) :
  match lstrip s with
  | String c _ => is_space c = false
  | EmptyString => True
  end.
Proof.
  induction s as [|c s IH]; simpl; [exact I|].
  destruct (is_space c) eqn:E; [exact IH | exact E].
Qed.

Lemma rstrip_no_lead (s : string) :
  match s with String c _ => is_space c = false | EmptyString => True end ->
  match rstrip s with
  | String c _ => is_space c = false
  | EmptyString => True
  end.
Proof.
  destruct s as [|c s]; simpl; [auto|]. intros E.
  destruct (rstrip s); [now rewrite E | exact E].
Qed.

Lemma rstrip_idempotent (s : string) : rstrip (rstrip s) = rstrip s.
Proof.
  induction s as [|c s IH]; simpl; [reflexivity|].
  destruct (rstrip s) as [|d t] eqn:E.
  - destruct (is_space c) eqn:Ec; simpl; [reflexivity | now rewrite Ec].
  - cbn [rstrip]. fold rstrip. cbn [rstrip] in IH. now rewrite IH.
Qed.

(** [s.strip().strip() == s.strip()] *)
Lemma strip_idempotent (s : string) : strip (strip s) = strip s.
Proof.
  unfold strip.
  rewrite (lstrip_fixed (rstrip (lstrip s)))
    by apply rstrip_no_lead, lstrip_no_lead.
  apply rstrip_idempotent.
Qed.

Lemma any_in_intro (w : string) (ws : list string) (s : string) :
  In w ws -> contains w s = true -> any_in ws s = true.
Proof.
  intros Hin Hc. unfold any_in. apply existsb_exists. eauto.
Qed.

End StringFacts.

(** ** Insertion-ordered dictionaries *)

Section DictFacts.
Context {V : Type}.
Implicit Types (d : list (string * V)) (k : string).

Lemma dict_get_set_eq k (v : V) d : dict_get k (dict_set k v d) = Some v.
Proof.
  induction d as [|[k' v'] d IH]; simpl.
  - now rewrite String.eqb_refl.
  - destruct (String.eqb k k') eqn:E; simpl.
    + now rewrite String.eqb_refl.
    + now rewrite E.
Qed.

Lemma dict_get_set_ne k k' (v : V) d :
  k <> k' -> dict_get k' (dict_set k v d) = dict_get k' d.
Proof.
  intros Hne. induction d as [|[k0 v0] d IH]; simpl.
  - destruct (String.eqb k' k) eqn:E; [|reflexivity].
    apply String.eqb_eq in E. congruence.
  - destruct (String.eqb k k0) eqn:E; simpl.
    + apply String.eqb_eq in E. subst k0.
      destruct (String.eqb k' k) eqn:E'; [|reflexivity].
      apply String.eqb_eq in E'. congruence.
    + now rewrite IH.
Qed.

Lemma dict_set_Forall (P : string * V -> Prop) k (v : V) d :
  P (k, v) -> Forall P d -> Forall P (dict_set k v d).
Proof.
  intros Hv. induction 1 as [|[k' v'] d Hx Hd IH]; simpl.
  - now constructor.
  - destruct (String.eqb k k'); constructor; auto.
Qed.

Lemma dict_get_In k (v : V) d : dict_get k d = Some v -> In (k, v) d.
Proof.
  induction d as [|[k' v'] d IH]; simpl; [discriminate|].
  destruct (String.eqb k k') eqn:E.
  - apply String.eqb_eq in E. intros [= ->]. subst. now left.
  - intros H. right. auto.
Qed.

Lemma dict_set_fresh k (v : V) d :
  dict_get k d = None -> dict_set k v d = d ++ [(k, v)].
Proof.
  induction d as [|[k' v'] d IH]; cbn [dict_get dict_set]; [reflexivity|].
  destruct (String.eqb k k'); [discriminate|].
  intros H. cbn [app]. now rewrite IH.
Qed.

End DictFacts.

(** ** The library models on sample inputs

    The expected values are those of CPython 3.11. *)

Section ModelChecks.

Example findall_backtracks_into_space :
  Re.findall "Date:\s*([^\n]+)" "Date: " Re.flag_im = Ok [Re.FStr " "].
Proof. vm_compute. reflexivity. Qed.

Example findall_set_ignores_case :
  Re.findall "Classification:\s*([A-Z//\s]+)"
    (lines ["Classification: SECRET//NOFORN"; "Date: x"]) Re.flag_im
  = Ok [Re.FStr (lines ["SECRET//NOFORN"; "Date"])].
Proof. vm_compute. reflexivity. Qed.

Example findall_word_boundary :
  Re.findall "\b(\d{1,2}[A-Z]{3}\d{4,10})\b"
    "grid 38SMB4484536781 and 4QFJ12345678x" Re.flag_im
  = Ok [Re.FStr "38SMB4484536781"].
Proof. vm_compute. reflexivity. Qed.

Example findall_lazy_body :
  Re.findall "Recommendations?[:\s]*\n((?:\d+\..*?\n?)*)"
    (lines ["Recommendations:"; "1. a"; "2. b"; "End"]) Re.flag_im
  = Ok [Re.FStr "1."].
Proof. vm_compute. reflexivity. Qed.

Example findall_negative_lookahead :
  Re.findall "Summary[:\s]*\n([^\n]+(?:\n(?![\w\s]*:)[^\n]*)*)"
    (lines ["Summary:"; "line1"; "line2"; "Key: v"; "line3"]) Re.flag_im
  = Ok [Re.FStr "line1"].
Proof. vm_compute. reflexivity. Qed.

Example findall_optional_tail :
  Re.findall
    "(?:^|\n)\s*(UNCLASSIFIED|CONFIDENTIAL|SECRET|TOP\s*SECRET)(?://[A-Z\s/]+)?"
    (lines ["secret//rel"; "  Top Secret"]) Re.flag_im
  = Ok [Re.FStr "secret"].
Proof. vm_compute. reflexivity. Qed.

Example findall_empty_matches :
  Re.findall "x*" "axxb" Re.no_flags
  = Ok [Re.FStr ""; Re.FStr "xx"; Re.FStr ""; Re.FStr ""].
Proof. vm_compute. reflexivity. Qed.

Example findall_tuples :
  Re.findall "(a)|(b)" "ab" Re.no_flags
  = Ok [Re.FTuple "a" [""]; Re.FTuple "" ["b"]].
Proof. vm_compute. reflexivity. Qed.

Example sub_removes_spaces :
  Re.sub "\s+" "" (lines ["38S MB 448 "; ""]) = Ok "38SMB448".
Proof. vm_compute. reflexivity. Qed.

Example strptime_short_fields :
  Datetime.strptime "2023-1-5 1:2:3" "%Y-%m-%d %H:%M:%S"
  = Ok {| Datetime.year := 2023; Datetime.month := 1; Datetime.day := 5;
          Datetime.hour := 1; Datetime.minute := 2; Datetime.second := 3 |}.
Proof. vm_compute. reflexivity. Qed.

Example strptime_rejects_bad_day :
  Datetime.strptime "2023-02-29" "%Y-%m-%d" = Raise ValueError.
Proof. vm_compute. reflexivity. Qed.

Example strptime_month_first_fails :
  Datetime.strptime "13/01/2023" "%m/%d/%Y" = Raise ValueError
  /\ parse_datetime "13/01/2023" = Ok "2023-01-13".
Proof. split; vm_compute; reflexivity. Qed.

Example title_restarts_after_punctuation :
  title "o'neil mc-donald 3rd" = "O'Neil Mc-Donald 3Rd".
Proof. vm_compute. reflexivity. Qed.

End ModelChecks.

(** ** The library fragments never fail on the extractor's patterns *)

Section LibraryFacts.

Lemma findall_returns (p text : string) (fl : Re.flags) :
  compiles p = true -> returns (Re.findall p text fl).
Proof.
  unfold compiles, Re.findall. destruct (Re.compile p); [|discriminate].
  intros _. eexists; reflexivity.
Qed.

Lemma sub_returns (p repl text : string) :
  compiles p = true -> returns (Re.sub p repl text).
Proof.
  unfold compiles, Re.sub. destruct (Re.compile p); [|discriminate].
  intros _. eexists; reflexivity.
Qed.

Lemma report_is_str (r : Re.regex) (st st' : Re.mstate) :
  Re.ngroups r <= 1 -> is_str (Re.report r st st').
Proof.
  unfold Re.report. destruct (Re.ngroups r) as [|[|n]]; simpl; auto. lia.
Qed.

Lemma scan_strings (r : Re.regex) (fl : Re.flags) :
  Re.ngroups r <= 1 ->
  forall budget prev s must,
    Forall is_str (Re.scan budget fl r prev s must).
Proof.
  intros Hr. induction budget as [|budget IH]; intros prev s must; simpl.
  - constructor.
  - match goal with |- context [Re.exec ?a ?b ?c ?d] =>
      destruct (Re.exec a b c d) as [st'|] end.
    + constructor; [now apply report_is_str | apply IH].
    + destruct s; [constructor | apply IH].
Qed.

Lemma findall_strings (p text : string) (fl : Re.flags) (l : list Re.found) :
  single_group p = true -> Re.findall p text fl = Ok l -> Forall is_str l.
Proof.
  unfold single_group, Re.findall. destruct (Re.compile p); [|discriminate].
  intros Hr [= <-]. apply scan_strings. now apply Nat.leb_le.
Qed.

Lemma strptime_outcome (data fmt : string) :
  format_ok fmt = true ->
  Datetime.strptime data fmt = Raise ValueError
  \/ exists d, Datetime.strptime data fmt = Ok d.
Proof.
  unfold format_ok, compiles, Datetime.strptime.
  destruct (Datetime.pattern false fmt) as [p|]; [|discriminate].
  destruct (Re.compile p) as [r|]; [|discriminate]. intros _.
  destruct (Re.match_start r data Re.flag_i) as [[rest caps]|]; [|now left].
  destruct (truthy rest); [now left|].
  match goal with |- context [Datetime.valid ?d] =>
    destruct (Datetime.valid d) end; eauto.
Qed.

Lemma try_formats_returns (d : string) (fmts : list (string * string)) :
  forallb format_ok (map fst fmts) = true -> returns (try_formats d fmts).
Proof.
  induction fmts as [|[i o] fmts IH]; simpl.
  - intros _. eexists; reflexivity.
  - rewrite andb_true_iff. intros [Hi Hrest].
    destruct (strptime_outcome d i Hi) as [-> | [t ->]].
    + now apply IH.
    + eexists; reflexivity.
Qed.

Lemma date_formats_ok : forallb format_ok (map fst date_formats) = true.
Proof. vm_compute. reflexivity. Qed.

Lemma parse_datetime_returns (s : string) : returns (parse_datetime s).
Proof. apply try_formats_returns, date_formats_ok. Qed.

(** Without a format that parses, the loop falls through to the input. *)
Lemma try_formats_fallback (d : string) (fmts : list (string * string)) :
  forallb format_ok (map fst fmts) = true ->
  existsb (parses d) (map fst fmts) = false ->
  try_formats d fmts = Ok d.
Proof.
  induction fmts as [|[i o] fmts IH]; simpl; [reflexivity|].
  rewrite andb_true_iff, orb_false_iff. intros [Hi Hok] [Hp Hrest].
  unfold parses in Hp.
  destruct (strptime_outcome d i Hi) as [E | [t E]]; rewrite E in *.
  - now apply IH.
  - discriminate.
Qed.

End LibraryFacts.

(** ** The extraction path returns *)

Section Totality.

Lemma registry_compiles :
  forallb (fun entry => forallb compiles (snd entry)) patterns = true.
Proof. vm_compute. reflexivity. Qed.

Lemma entity_patterns_ok :
  forallb (fun p => compiles p && single_group p)
    (people_patterns ++ place_patterns ++ equipment_patterns) = true.
Proof. vm_compute. reflexivity. Qed.

Lemma find_matches_returns (pats : list string) (text : string) :
  forallb compiles pats = true -> returns (find_matches pats text).
Proof.
  induction pats as [|p pats IH]; simpl.
  - intros _. eexists; reflexivity.
  - rewrite andb_true_iff. intros [Hp Hrest].
    apply bind_returns; [now apply findall_returns|]. intros found.
    apply bind_returns; [now apply IH|]. intros rest.
    eexists; reflexivity.
Qed.

Lemma clean_returns (field_type m : string) : returns (clean field_type m).
Proof.
  unfold clean, cleaners. simpl.
  repeat match goal with
         | |- context [String.eqb field_type ?k] =>
             destruct (String.eqb field_type k)
         end;
    first [ apply parse_datetime_returns
          | apply sub_returns; vm_compute; reflexivity
          | eexists; reflexivity ].
Qed.

Lemma clean_matches_returns (field_type : string) (matches : list Re.found) :
  forall cleaned, returns (clean_matches field_type matches cleaned).
Proof.
  induction matches as [|m matches IH]; intros cleaned; simpl.
  - eexists; reflexivity.
  - apply bind_returns; [apply clean_returns|]. intros m'.
    destruct (truthy m' && negb (mem m' cleaned)); apply IH.
Qed.

Lemma extract_field_returns (text : string) (e : extraction)
  (t : string) (pats : list string) :
  forallb compiles pats = true -> returns (extract_field text e (t, pats)).
Proof.
  intros Hp. unfold extract_field.
  apply bind_returns; [now apply find_matches_returns|]. intros [|m ms].
  - eexists; reflexivity.
  - apply bind_returns; [apply clean_matches_returns|]. intros [|best rest];
      eexists; reflexivity.
Qed.

Lemma extract_fields_returns (text : string)
  (entries : list (string * list string)) :
  forallb (fun entry => forallb compiles (snd entry)) entries = true ->
  forall e, returns (extract_fields text e entries).
Proof.
  induction entries as [|[t pats] entries IH]; simpl; intros H e.
  - eexists; reflexivity.
  - apply andb_true_iff in H as [Hp Hrest].
    apply bind_returns; [now apply extract_field_returns|]. intros e'.
    now apply IH.
Qed.

(** *** The entity miner *)

Lemma dict_set_keys {V} (k : string) (v : V) (d : list (string * V)) :
  is_Some (dict_get k d) -> map fst (dict_set k v d) = map fst d.
Proof.
  induction d as [|[k' v'] d IH]; simpl; intros [x Hx]; [discriminate|].
  destruct (String.eqb k k') eqn:E; simpl.
  - apply String.eqb_eq in E. now subst.
  - f_equal. apply IH. eauto.
Qed.

Lemma all_strings_get (d : list (string * list Re.found)) (k : string)
  (l : list Re.found) :
  all_strings d -> dict_get k d = Some l -> Forall is_str l.
Proof.
  intros Hd Hk. apply dict_get_In in Hk.
  unfold all_strings in Hd. rewrite Forall_forall in Hd.
  apply (Hd (k, l)). now apply list_elem_of_In.
Qed.

Lemma mine_spec (pats : list string) (text : string) (fl : Re.flags)
  (key : string) :
  forallb (fun p => compiles p && single_group p) pats = true ->
  forall d,
    is_Some (dict_get key d) -> all_strings d ->
    exists d',
      mine pats text fl key d = Ok d'
      /\ all_strings d'
      /\ map fst d' = map fst d
      /\ is_Some (dict_get key d')
      /\ (forall k, k <> key -> dict_get k d' = dict_get k d).
Proof.
  induction pats as [|p pats IH]; simpl; intros Hp d Hkey Hd.
  - exists d. repeat split; auto.
  - apply andb_true_iff in Hp as [Hp Hrest].
    apply andb_true_iff in Hp as [Hc Hg].
    destruct (findall_returns p text fl Hc) as [ms Hms]. rewrite Hms. simpl.
    pose proof (findall_strings _ _ _ _ Hg Hms) as Hstr.
    unfold dict_extend. destruct Hkey as [l Hl]. rewrite Hl. simpl.
    destruct (IH Hrest (dict_set key (l ++ ms) d)) as (d' & E & S' & K & G & O).
    + rewrite dict_get_set_eq. eauto.
    + apply dict_set_Forall; [|exact Hd]. simpl.
      apply Forall_app. split; [|exact Hstr].
      eapply all_strings_get; eauto.
    + exists d'. repeat split; auto.
      * rewrite K. apply dict_set_keys. eauto.
      * intros k Hk. rewrite O by exact Hk. now apply dict_get_set_ne.
Qed.

Lemma strip_all_returns (l : list Re.found) :
  Forall is_str l -> returns (rmapM strip_found l).
Proof.
  induction 1 as [|m l Hm Hl IH]; simpl.
  - eexists; reflexivity.
  - destruct m as [s|]; [|contradiction]. simpl.
    destruct IH as [ss ->]. simpl. eexists; reflexivity.
Qed.

Lemma dedup_returns (l : list Re.found) : Forall is_str l -> returns (dedup l).
Proof.
  intros Hl. unfold dedup. destruct (strip_all_returns l Hl) as [ss ->].
  simpl. eexists; reflexivity.
Qed.

Lemma dedup_nil : dedup [] = Ok [].
Proof. reflexivity. Qed.

Lemma dedup_all_spec (d : list (string * list Re.found)) :
  all_strings d ->
  exists d',
    dedup_all d = Ok d'
    /\ map fst d' = map fst d
    /\ (forall k l, dict_get k d = Some l ->
          exists l', dedup l = Ok l' /\ dict_get k d' = Some l').
Proof.
  induction 1 as [|[k0 l0] d Hx Hd IH]; simpl.
  - exists []. repeat split; auto. discriminate.
  - destruct (dedup_returns l0 Hx) as [l0' E0]. rewrite E0. simpl.
    destruct IH as (d' & -> & K & G). simpl.
    eexists. split; [reflexivity|]. split; [simpl; now rewrite K|].
    intros k l. simpl. destruct (String.eqb k k0).
    + intros [= <-]. eauto.
    + apply G.
Qed.

Lemma extract_entities_spec (text : string) :
  exists ents,
    extract_entities text = Ok ents
    /\ map fst ents = ["people"; "places"; "organizations"; "equipment"]
    /\ dict_get "organizations" ents = Some [].
Proof.
  unfold extract_entities.
  set (d0 := [("people", []); ("places", []); ("organizations", []);
              ("equipment", [])] : list (string * list Re.found)).
  assert (H0 : all_strings d0) by (repeat constructor).
  destruct (mine_spec people_patterns text Re.no_flags "people")
    with (d := d0) as (d1 & E1 & S1 & K1 & _ & O1);
    [vm_compute; reflexivity | simpl; eauto | exact H0 |].
  destruct (mine_spec place_patterns text Re.no_flags "places")
    with (d := d1) as (d2 & E2 & S2 & K2 & _ & O2);
    [vm_compute; reflexivity | rewrite O1 by discriminate; simpl; eauto
    | exact S1 |].
  destruct (mine_spec equipment_patterns text Re.flag_i "equipment")
    with (d := d2) as (d3 & E3 & S3 & K3 & _ & O3);
    [vm_compute; reflexivity
    | rewrite O2, O1 by discriminate; simpl; eauto | exact S2 |].
  rewrite E1, bind_Ok_l, E2, bind_Ok_l, E3, bind_Ok_l.
  destruct (dedup_all_spec d3 S3) as (ents & E & K & G).
  exists ents. split; [exact E|]. split.
  - now rewrite K, K3, K2, K1.
  - destruct (G "organizations" []) as (l' & Hl & Hg).
    + now rewrite O3, O2, O1 by discriminate.
    + rewrite dedup_nil in Hl. now injection Hl as <-.
Qed.

End Totality.


(** ** What the field loop stores *)

Tactic Notation "bind_inv" hyp(H) "as" ident(a) ident(Ha) :=
  apply bind_Ok in H; destruct H as (a & Ha & H).

Section FieldLoop.
Variable text : string.

Lemma field_types_NoDup : NoDup field_types.
Proof. apply (bool_decide_unpack _). vm_compute. reflexivity. Qed.

Lemma extract_field_spec (e : extraction) (entry : string * list string)
  (e' : extraction) :
  extract_field text e entry = Ok e' ->
  exists c,
    candidates text entry = Ok c
    /\ raw_extractions e' =
         match c with
         | Some cleaned => <[fst entry := cleaned]> (raw_extractions e)
         | None => raw_extractions e
         end
    /\ structured_fields e' =
         match selected c with
         | Some best => <[fst entry := VStr best]> (structured_fields e)
         | None => structured_fields e
         end
    /\ confidence_scores e' =
         match selected c with
         | Some best =>
             dict_set (fst entry)
               (calculate_confidence (fst entry) best text)
               (confidence_scores e)
         | None => confidence_scores e
         end
    /\ document_type e' = document_type e
    /\ extraction_metadata e' = extraction_metadata e.
Proof.
  destruct entry as [t pats]. unfold extract_field, candidates.
  cbn [fst snd]. intros H. bind_inv H as ms Hms. rewrite Hms, bind_Ok_l.
  destruct ms as [|m ms].
  - injection H as <-. exists None. repeat split.
  - bind_inv H as cleaned Hc. rewrite Hc, bind_Ok_l.
    exists (Some cleaned). destruct cleaned as [|best rest];
      injection H as <-; repeat split.
Qed.

Lemma extract_field_other (e : extraction) (entry : string * list string)
  (e' : extraction) (t : string) :
  extract_field text e entry = Ok e' -> t <> fst entry ->
  raw_extractions e' !! t = raw_extractions e !! t
  /\ structured_fields e' !! t = structured_fields e !! t
  /\ dict_get t (confidence_scores e') = dict_get t (confidence_scores e).
Proof.
  intros H Hne. apply extract_field_spec in H as (c & _ & -> & -> & -> & _).
  repeat split.
  - destruct c; [now apply lookup_insert_ne | reflexivity].
  - destruct (selected c); [now apply lookup_insert_ne | reflexivity].
  - destruct (selected c); [apply dict_get_set_ne; congruence | reflexivity].
Qed.

Lemma extract_field_same (e : extraction) (entry : string * list string)
  (e' : extraction) :
  extract_field text e entry = Ok e' ->
  exists c,
    candidates text entry = Ok c
    /\ raw_extractions e' !! fst entry =
         match c with
         | Some cleaned => Some cleaned
         | None => raw_extractions e !! fst entry
         end
    /\ structured_fields e' !! fst entry =
         match selected c with
         | Some best => Some (VStr best)
         | None => structured_fields e !! fst entry
         end
    /\ dict_get (fst entry) (confidence_scores e') =
         match selected c with
         | Some best => Some (calculate_confidence (fst entry) best text)
         | None => dict_get (fst entry) (confidence_scores e)
         end.
Proof.
  intros H. apply extract_field_spec in H as (c & Hc & -> & -> & -> & _).
  exists c. split; [exact Hc|]. repeat split.
  - destruct c; [apply lookup_insert_eq | reflexivity].
  - destruct (selected c); [apply lookup_insert_eq | reflexivity].
  - destruct (selected c); [apply dict_get_set_eq | reflexivity].
Qed.

Lemma extract_fields_spec (entries : list (string * list string)) :
  NoDup (map fst entries) ->
  forall e e',
    extract_fields text e entries = Ok e' ->
    document_type e' = document_type e
    /\ extraction_metadata e' = extraction_metadata e
    /\ (forall t, t ∉ map fst entries ->
          raw_extractions e' !! t = raw_extractions e !! t
          /\ structured_fields e' !! t = structured_fields e !! t
          /\ dict_get t (confidence_scores e')
             = dict_get t (confidence_scores e))
    /\ (forall entry, entry ∈ entries ->
          exists c,
            candidates text entry = Ok c
            /\ raw_extractions e' !! fst entry =
                 match c with
                 | Some cleaned => Some cleaned
                 | None => raw_extractions e !! fst entry
                 end
            /\ structured_fields e' !! fst entry =
                 match selected c with
                 | Some best => Some (VStr best)
                 | None => structured_fields e !! fst entry
                 end
            /\ dict_get (fst entry) (confidence_scores e') =
                 match selected c with
                 | Some best =>
                     Some (calculate_confidence (fst entry) best text)
                 | None => dict_get (fst entry) (confidence_scores e)
                 end).
Proof.
  induction entries as [|entry0 rest IH]; intros Hnd e e' H.
  - injection H as <-. repeat split; auto. intros entry Hin.
    now apply elem_of_nil in Hin.
  - cbn [map] in Hnd. apply NoDup_cons in Hnd as [Hfresh Hnd].
    cbn [extract_fields] in H. bind_inv H as e1 H1.
    destruct (IH Hnd e1 e' H) as (D & M & U & P).
    pose proof (extract_field_spec _ _ _ H1) as (c0 & _ & _ & _ & _ & D0 & M0).
    split; [congruence|]. split; [congruence|]. split.
    + intros t Ht. cbn [map] in Ht. apply not_elem_of_cons in Ht as [Hne Ht].
      destruct (U t Ht) as (-> & -> & ->).
      exact (extract_field_other _ _ _ _ H1 Hne).
    + intros entry Hin. apply elem_of_cons in Hin as [-> | Hin].
      * destruct (U (fst entry0) Hfresh) as (-> & -> & ->).
        exact (extract_field_same _ _ _ H1).
      * assert (Hne : fst entry <> fst entry0).
        { intros Heq. apply Hfresh. rewrite <- Heq.
          apply list_elem_of_In, in_map, list_elem_of_In, Hin. }
        destruct (P entry Hin) as (c & Hc & R & S & F).
        destruct (extract_field_other _ _ _ _ H1 Hne) as (R1 & S1 & F1).
        exists c. rewrite R, S, F, R1, S1, F1. auto.
Qed.

End FieldLoop.

(** ** Post-processing and the whole extraction *)

Section WholeExtraction.

Lemma post_process_spec (e : extraction) (text : string) :
  raw_extractions e !! "date" = None ->
  raw_extractions e !! "time" = None ->
  exists ents,
    extract_entities text = Ok ents
    /\ post_process_extractions e text = Ok (finished e text ents).
Proof.
  intros Hdate Htime.
  destruct (extract_entities_spec text) as (ents & E & _).
  exists ents. split; [exact E|].
  unfold post_process_extractions, has_key. rewrite Hdate, Htime.
  rewrite !bind_Ok_l.
  assert (Hfields :
    (if match structured_fields e !! "date_time" with
        | Some _ => true
        | None => false
        end
     then Ok (structured_fields e)
     else Ok (structured_fields e)) = Ok (structured_fields e))
    by (destruct (structured_fields e !! "date_time"); reflexivity).
  rewrite Hfields, bind_Ok_l, E, bind_Ok_l.
  unfold finished, average, mean.
  destruct (confidence_scores e); reflexivity.
Qed.

Lemma synthetic_keys_fresh :
  ("date" ∉ field_types) /\ ("time" ∉ field_types)
  /\ ("key_themes" ∉ field_types) /\ ("entities" ∉ field_types).
Proof.
  repeat split; apply (bool_decide_unpack _); vm_compute; reflexivity.
Qed.

(** The extraction always returns: the state after the field loop,
    completed by post-processing. *)
Lemma extract_structured_data_spec (now text filename : string) :
  exists e ents,
    extract_fields text (initial now text filename) patterns = Ok e
    /\ extract_entities text = Ok ents
    /\ extract_structured_data now text filename = Ok (finished e text ents).
Proof.
  destruct (extract_fields_returns text patterns registry_compiles
              (initial now text filename)) as [e He].
  destruct (extract_fields_spec text patterns field_types_NoDup _ _ He)
    as (_ & _ & U & _).
  destruct synthetic_keys_fresh as (Hd & Ht & _).
  destruct (post_process_spec e text) as (ents & E & Hp).
  - destruct (U "date" Hd) as (-> & _). apply lookup_empty.
  - destruct (U "time" Ht) as (-> & _). apply lookup_empty.
  - exists e, ents. split; [exact He|]. split; [exact E|].
    unfold extract_structured_data. fold (initial now text filename).
    now rewrite He, bind_Ok_l.
Qed.

(** What an extraction holds for a registered field type. *)
Lemma extraction_field (now text filename : string) (r : extraction)
  (entry : string * list string) :
  extract_structured_data now text filename = Ok r ->
  entry ∈ patterns ->
  exists c,
    candidates text entry = Ok c
    /\ raw_extractions r !! fst entry = c
    /\ structured_fields r !! fst entry = VStr <$> selected c
    /\ dict_get (fst entry) (confidence_scores r)
       = (fun best => calculate_confidence (fst entry) best text)
           <$> selected c.
Proof.
  intros Hr Hin.
  destruct (extract_structured_data_spec now text filename)
    as (e & ents & He & _ & Hfin).
  rewrite Hfin in Hr. injection Hr as <-.
  destruct (extract_fields_spec text patterns field_types_NoDup _ _ He)
    as (_ & _ & _ & P).
  destruct (P entry Hin) as (c & Hc & R & S & F).
  assert (Hkey : fst entry ∈ field_types)
    by (apply list_elem_of_In, in_map, list_elem_of_In, Hin).
  destruct synthetic_keys_fresh as (_ & _ & Hk & Hen).
  exists c. split; [exact Hc|]. cbn [finished raw_extractions
    structured_fields confidence_scores]. split; [|split].
  - rewrite R. destruct c; [reflexivity | apply lookup_empty].
  - rewrite !lookup_insert_ne
      by (intros Heq; rewrite <- Heq in Hkey; contradiction).
    rewrite S. destruct (selected c); [reflexivity | apply lookup_empty].
  - rewrite F. destruct (selected c); reflexivity.
Qed.

(** Outside the registry the loop stores nothing. *)
Lemma extraction_other (now text filename : string) (r : extraction)
  (t : string) :
  extract_structured_data now text filename = Ok r ->
  t ∉ field_types ->
  raw_extractions r !! t = None
  /\ dict_get t (confidence_scores r) = None
  /\ (t <> "key_themes" -> t <> "entities" -> structured_fields r !! t = None).
Proof.
  intros Hr Ht.
  destruct (extract_structured_data_spec now text filename)
    as (e & ents & He & _ & Hfin).
  rewrite Hfin in Hr. injection Hr as <-.
  destruct (extract_fields_spec text patterns field_types_NoDup _ _ He)
    as (_ & _ & U & _).
  destruct (U t Ht) as (R & S & F).
  cbn [finished raw_extractions structured_fields confidence_scores].
  repeat split.
  - rewrite R. apply lookup_empty.
  - rewrite F. reflexivity.
  - intros H1 H2. rewrite !lookup_insert_ne by congruence.
    rewrite S. apply lookup_empty.
Qed.

End WholeExtraction.

(** * The checked claims *)

(** C1 (best-match rule).  For every text and filename and every one of the
    eleven field types [t]: whenever the extraction result has an entry for
    [t] in [structured_fields], [raw_extractions] has a non-empty list for
    [t] and the entry is its first element.  The selection is the first
    candidate; no score takes part in it. *)
Theorem best_match_is_first_candidate
  (now text filename : string) (r : extraction) (t : string) (v : pyval) :
  extract_structured_data now text filename = Ok r ->
  t ∈ field_types ->
  structured_fields r !! t = Some v ->
  exists best rest,
    raw_extractions r !! t = Some (best :: rest) /\ v = VStr best.
Proof.
  intros Hr Ht Hv.
  apply list_elem_of_In, in_map_iff in Ht as (entry & <- & Hin).
  apply list_elem_of_In in Hin.
  destruct (extraction_field _ _ _ _ _ Hr Hin) as (c & _ & R & S & _).
  rewrite S in Hv. destruct c as [[|best rest]|]; try discriminate.
  injection Hv as <-. exists best, rest. now rewrite R.
Qed.

Lemma best_match_is_first_candidate_witness :
  exists r,
    extract_structured_data "" "Date: 01/15/2023" "" = Ok r
    /\ exists best rest,
         raw_extractions r !! "date_time" = Some (best :: rest)
         /\ VStr "2023-01-15" = VStr best.
Proof.
  eexists. split; [vm_compute; reflexivity|].
  apply (best_match_is_first_candidate "" "Date: 01/15/2023" "").
  - vm_compute. reflexivity.
  - apply (bool_decide_unpack _). vm_compute. reflexivity.
  - vm_compute. reflexivity.
Defined.

(** C2 (no exception, empty input).  For every text and filename the
    extraction returns a result, no exception escapes.  On the empty text with
    the empty filename the result has document type "general_document", no
    confidence score, and only the two synthetic structured fields:
    [key_themes] empty and [entities] with four empty categories. *)
Theorem extraction_never_raises :
  (forall now text filename,
     exists r, extract_structured_data now text filename = Ok r)
  /\ (forall now,
        exists r,
          extract_structured_data now "" "" = Ok r
          /\ document_type r = "general_document"
          /\ confidence_scores r = []
          /\ raw_extractions r = ∅
          /\ structured_fields r =
               <["entities" := VDict no_entities]>
                 (<["key_themes" := VList []]> ∅)).
Proof.
  split.
  - intros now text filename.
    destruct (extract_structured_data_spec now text filename)
      as (e & ents & _ & _ & H).
    eauto.
  - intros now. eexists. split; [vm_compute; reflexivity|].
    vm_compute. repeat split.
Qed.

Lemma clean_matches_nonempty (field_type : string) (matches : list Re.found) :
  forall acc cleaned,
    clean_matches field_type matches acc = Ok cleaned ->
    Forall (fun s => s <> "") acc -> Forall (fun s => s <> "") cleaned.
Proof.
  induction matches as [|m matches IH]; intros acc cleaned H Hacc;
    cbn [clean_matches] in H.
  - now injection H as <-.
  - bind_inv H as m' Hm'.
    destruct (truthy m' && negb (mem m' acc)) eqn:E.
    + apply (IH _ _ H). apply Forall_app. split; [exact Hacc|].
      constructor; [|constructor].
      apply andb_true_iff in E as [E _]. now destruct m'.
    + now apply (IH _ _ H).
Qed.

(** C3 as stated fails: on the text "Date: " the second date pattern matches
    a single space, which the normalizer cleans to the empty string, and the
    field type is stored in [raw_extractions] with an empty list. *)
Lemma empty_list_stored_counterexample :
  ~ (forall now text filename r t cands,
       extract_structured_data now text filename = Ok r ->
       raw_extractions r !! t = Some cands ->
       cands <> []).
Proof.
  intros H.
  assert (E : exists r, extract_structured_data "" "Date: " "" = Ok r
                        /\ raw_extractions r !! "date_time" = Some []).
  { eexists. split; vm_compute; reflexivity. }
  destruct E as (r & Hr & Hraw).
  exact (H _ _ _ _ _ _ Hr Hraw eq_refl).
Qed.

(** C3 (absence invariant, amended).  For every text and every registered
    field type: when no pattern matches, the field type has no entry in
    [raw_extractions] and none in [structured_fields]; when some pattern
    matches, [raw_extractions] holds the cleaned candidates, none of which is
    the empty string, and [structured_fields] has no entry if that list is
    empty.  A structured field is never the empty string. *)
Theorem no_match_no_entry
  (now text filename : string) (r : extraction) (t : string)
  (pats : list string) :
  extract_structured_data now text filename = Ok r ->
  (t, pats) ∈ patterns ->
  exists matches,
    find_matches pats text = Ok matches
    /\ (matches = [] ->
        raw_extractions r !! t = None /\ structured_fields r !! t = None)
    /\ (matches <> [] ->
        exists cleaned,
          clean_matches t matches [] = Ok cleaned
          /\ raw_extractions r !! t = Some cleaned
          /\ Forall (fun s => s <> "") cleaned
          /\ (cleaned = [] -> structured_fields r !! t = None))
    /\ structured_fields r !! t <> Some (VStr "").
Proof.
  intros Hr Hin.
  destruct (extraction_field _ _ _ _ _ Hr Hin) as (c & Hc & R & S & _).
  cbn [fst] in R, S. unfold candidates in Hc. cbn [fst snd] in Hc.
  bind_inv Hc as matches Hm. exists matches. split; [exact Hm|].
  destruct matches as [|m ms].
  - injection Hc as <-. repeat split; try assumption; try congruence.
    rewrite S. discriminate.
  - bind_inv Hc as cleaned Hcl. injection Hc as <-.
    pose proof (clean_matches_nonempty _ _ _ _ Hcl (List.Forall_nil _)) as Hne.
    split; [discriminate|]. split.
    + intros _. exists cleaned. repeat split; try assumption.
      intros ->. exact S.
    + rewrite S. destruct cleaned as [|best rest]; [discriminate|].
      apply Forall_cons in Hne as [Hbest _]. cbn. congruence.
Qed.

Lemma no_match_no_entry_witness :
  exists r matches,
    extract_structured_data "" "Date: " "" = Ok r
    /\ find_matches
         [ "Date[/\s]*Time[^:]*:\s*([^\n]+)";
           "Date:\s*([^\n]+)";
           "Time:\s*([^\n]+)";
           "(\d{4}-\d{2}-\d{2}[\sT]\d{2}:\d{2}:\d{2})";
           "(\d{1,2}/\d{1,2}/\d{4})";
           "(\d{1,2}-\d{1,2}-\d{4})" ] "Date: " = Ok matches
    /\ (matches = [] ->
        raw_extractions r !! "date_time" = None
        /\ structured_fields r !! "date_time" = None)
    /\ (matches <> [] ->
        exists cleaned,
          clean_matches "date_time" matches [] = Ok cleaned
          /\ raw_extractions r !! "date_time" = Some cleaned
          /\ Forall (fun s => s <> "") cleaned
          /\ (cleaned = [] -> structured_fields r !! "date_time" = None))
    /\ structured_fields r !! "date_time" <> Some (VStr "").
Proof.
  eexists. 
  assert (Hr : extract_structured_data "" "Date: " "" = Ok _)
    by (vm_compute; reflexivity).
  assert (Hin : ("date_time",
           [ "Date[/\s]*Time[^:]*:\s*([^\n]+)";
             "Date:\s*([^\n]+)";
             "Time:\s*([^\n]+)";
             "(\d{4}-\d{2}-\d{2}[\sT]\d{2}:\d{2}:\d{2})";
             "(\d{1,2}/\d{1,2}/\d{4})";
             "(\d{1,2}-\d{1,2}-\d{4})" ]) ∈ patterns)
    by (apply (bool_decide_unpack _); vm_compute; reflexivity).
  destruct (no_match_no_entry _ _ _ _ _ _ Hr Hin) as (matches & H).
  exists matches. split; [exact Hr | exact H].
Defined.

Lemma calculate_confidence_in_range (field_type value full_text : string) :
  in_score_range (calculate_confidence field_type value full_text) = true.
Proof.
  unfold calculate_confidence.
  destruct (String.eqb field_type "classification"
            && contains "classification:" (lower full_text));
    [| destruct (String.eqb field_type "date_time"
                 && any_in ["date"; "time"] (lower full_text));
       [| destruct (String.eqb field_type "unit"
                    && contains "unit" (lower full_text));
          [| destruct (String.eqb field_type "location_mgrs"
                       && contains "mgrs" (lower full_text)) ]]];
    destruct (Nat.ltb (String.length value) 3);
    vm_compute; reflexivity.
Qed.

Lemma extract_fields_scores (text : string)
  (entries : list (string * list string)) :
  forall e e',
    extract_fields text e entries = Ok e' ->
    Forall (fun p => in_score_range (snd p) = true) (confidence_scores e) ->
    Forall (fun p => in_score_range (snd p) = true) (confidence_scores e').
Proof.
  induction entries as [|entry rest IH]; intros e e' H He;
    cbn [extract_fields] in H.
  - now injection H as <-.
  - bind_inv H as e1 H1. apply (IH _ _ H).
    apply extract_field_spec in H1 as (c & _ & _ & _ & -> & _).
    destruct (selected c); [|exact He].
    apply dict_set_Forall; [|exact He].
    apply calculate_confidence_in_range.
Qed.

(** C4 (confidence bounds).  [calculate_confidence] returns a value in
    [0.1, 1.0] for every field type, value and document text, and every score
    stored in [confidence_scores] by an extraction lies in [0.1, 1.0]. *)
Theorem confidence_in_range :
  (forall field_type value full_text,
     PrimFloat.leb 0.1%float
       (calculate_confidence field_type value full_text) = true
     /\ PrimFloat.leb
          (calculate_confidence field_type value full_text) 1.0%float = true)
  /\ (forall now text filename r t c,
        extract_structured_data now text filename = Ok r ->
        In (t, c) (confidence_scores r) ->
        PrimFloat.leb 0.1%float c = true /\ PrimFloat.leb c 1.0%float = true).
Proof.
  split.
  - intros field_type value full_text.
    apply andb_true_iff, calculate_confidence_in_range.
  - intros now text filename r t c Hr Hin.
    destruct (extract_structured_data_spec now text filename)
      as (e & ents & He & _ & Hfin).
    rewrite Hfin in Hr. injection Hr as <-.
    cbn [finished confidence_scores] in Hin.
    pose proof (extract_fields_scores _ _ _ _ He (List.Forall_nil _)) as Hall.
    rewrite List.Forall_forall in Hall.
    apply andb_true_iff. exact (Hall (t, c) Hin).
Qed.

Lemma confidence_in_range_witness :
  exists r,
    extract_structured_data "" "MGRS: 38SMB4484536781" "" = Ok r
    /\ In ("location_mgrs", 0.9%float) (confidence_scores r)
    /\ PrimFloat.leb 0.1%float 0.9%float = true
    /\ PrimFloat.leb 0.9%float 1.0%float = true.
Proof.
  assert (H : exists r,
             extract_structured_data "" "MGRS: 38SMB4484536781" "" = Ok r
             /\ In ("location_mgrs", 0.9%float) (confidence_scores r)).
  { eexists. split; [vm_compute; reflexivity | vm_compute; left; reflexivity]. }
  destruct H as (r & Hr & Hin). exists r.
  split; [exact Hr|]. split; [exact Hin|].
  exact (proj2 confidence_in_range _ _ _ _ _ _ Hr Hin).
Defined.

(** C5 (date normalizer).  On the four-digit date "0999-01-15" the
    normalizer does not return its input: the second format parses it and
    [strftime] prints the year without its leading zero.  The same value
    reaches [structured_fields] when a document carries that date. *)
Theorem parse_datetime_drops_leading_zeros :
  parse_datetime "0999-01-15" = Ok "999-01-15"
  /\ parse_datetime "0999-01-15" <> Ok "0999-01-15"
  /\ (exists r,
        extract_structured_data "" "Date: 0999-01-15" "" = Ok r
        /\ raw_extractions r !! "date_time" = Some ["999-01-15"]
        /\ structured_fields r !! "date_time" = Some (VStr "999-01-15")).
Proof.
  split; [vm_compute; reflexivity|].
  split; [vm_compute; discriminate|].
  eexists. split; [vm_compute; reflexivity|].
  split; vm_compute; reflexivity.
Qed.

Lemma classify_labelled (text : string) :
  labelled (lower text) (classify_document_type text).
Proof.
  unfold classify_document_type.
  destruct (any_in ["intelligence"; "intel"; "assessment"; "analysis"]
              (lower text)) eqn:E1.
  - destruct (any_in ["summary"; "sitrep"; "situation"] (lower text)) eqn:E2;
      [now constructor|].
    destruct (any_in ["assessment"; "analysis"] (lower text)) eqn:E3;
      now constructor.
  - destruct (any_in ["patrol"; "mission"; "operation"] (lower text)) eqn:E2;
      [now constructor|].
    destruct (any_in ["incident"; "event"; "contact"] (lower text)) eqn:E3;
      [now constructor|].
    destruct (any_in ["brief"; "briefing"] (lower text)) eqn:E4;
      now constructor.
Qed.

Lemma labelled_unique (s l1 l2 : string) :
  labelled s l1 -> labelled s l2 -> l1 = l2.
Proof.
  intros H1 H2. destruct H1; destruct H2; congruence.
Qed.

(** C6 as stated fails: seven labels are returned, each by some text, so no
    enumeration of six labels contains every result. *)
Lemma six_labels_counterexample :
  ~ (exists labels,
       length labels = 6
       /\ forall text, In (classify_document_type text) labels).
Proof.
  intros (labels & Hlen & H).
  assert (Hincl : incl document_types labels).
  { intros l Hl. unfold document_types in Hl. cbn [In] in Hl.
    destruct Hl as [<-|[<-|[<-|[<-|[<-|[<-|[<-|[]]]]]]]].
    - exact (H "intelligence summary").
    - exact (H "analysis").
    - exact (H "intel").
    - exact (H "patrol").
    - exact (H "incident").
    - exact (H "brief").
    - exact (H ""). }
  assert (Hnd : List.NoDup document_types).
  { apply NoDup_ListNoDup, (bool_decide_unpack _). vm_compute. reflexivity. }
  pose proof (List.NoDup_incl_length Hnd Hincl) as Hle.
  rewrite Hlen in Hle. cbn in Hle. lia.
Qed.

(** C6 (classification, amended).  For every text, [classify_document_type]
    returns exactly one label, one of the seven of [document_types], the one
    assigned by the keyword priority order; a text containing both
    "Intelligence Summary" and "SITREP" is an "intelligence_summary". *)
Theorem classification_by_priority (text : string) :
  In (classify_document_type text) document_types
  /\ labelled (lower text) (classify_document_type text)
  /\ (forall label, labelled (lower text) label ->
        label = classify_document_type text)
  /\ (contains "Intelligence Summary" text = true ->
      contains "SITREP" text = true ->
      classify_document_type text = "intelligence_summary").
Proof.
  pose proof (classify_labelled text) as HL.
  split; [|split; [exact HL|split]].
  - destruct HL; unfold document_types; cbn [In]; tauto.
  - intros label Hl. exact (labelled_unique _ _ _ Hl HL).
  - intros H1 H2. apply (labelled_unique _ _ _ HL).
    apply contains_lower in H1, H2.
    constructor.
    + apply (any_in_intro "intelligence"); [cbn; tauto|].
      exact (contains_part "" "intelligence" " summary" _ H1).
    + apply (any_in_intro "sitrep"); [cbn; tauto | exact H2].
Qed.

Lemma classification_by_priority_witness :
  classify_document_type "Intelligence Summary: SITREP 12"
  = "intelligence_summary".
Proof.
  apply (classification_by_priority "Intelligence Summary: SITREP 12");
    vm_compute; reflexivity.
Defined.

(** ** The database field mapper *)

Section Mapper.

Lemma map_field_spec (structured result : gmap string pyval)
  (extracted_field db_field : string) :
  map_field structured result (extracted_field, db_field)
  = Ok (match overlaid extracted_field (structured !! extracted_field) None with
        | Some v => <[db_field := v]> result
        | None => result
        end).
Proof.
  unfold map_field, has_key, getitem, overlaid, mapped_value.
  destruct (structured !! extracted_field) as [v|]; [|reflexivity].
  rewrite bind_Ok_l.
  destruct v as [|s|l|d]; cbn [truthy_val]; [reflexivity | | | ].
  - destruct (truthy s); [|reflexivity].
    destruct (String.eqb extracted_field "key_themes"); reflexivity.
  - destruct l; [reflexivity|].
    destruct (String.eqb extracted_field "key_themes"); reflexivity.
  - destruct d; [reflexivity|].
    destruct (String.eqb extracted_field "key_themes"); reflexivity.
Qed.

Lemma map_fields_spec (structured : gmap string pyval)
  (entries : list (string * string)) :
  NoDup (map snd entries) ->
  forall result,
  exists result',
    map_fields structured result entries = Ok result'
    /\ (forall k, k ∉ map snd entries -> result' !! k = result !! k)
    /\ (forall entry, entry ∈ entries ->
          result' !! snd entry
          = overlaid (fst entry) (structured !! fst entry)
              (result !! snd entry)).
Proof.
  induction entries as [|[ef db] rest IH]; intros Hnd result.
  - exists result. repeat split; auto. intros entry Hin.
    now apply elem_of_nil in Hin.
  - cbn [map snd] in Hnd. apply NoDup_cons in Hnd as [Hfresh Hnd].
    cbn [map_fields]. rewrite map_field_spec, bind_Ok_l.
    set (r1 := match overlaid ef (structured !! ef) None with
               | Some v => <[db := v]> result
               | None => result
               end).
    assert (Hother : forall k, k <> db -> r1 !! k = result !! k).
    { intros k Hk. unfold r1.
      destruct (overlaid ef (structured !! ef) None);
        [now apply lookup_insert_ne | reflexivity]. }
    assert (Hsame : r1 !! db = overlaid ef (structured !! ef) (result !! db)).
    { unfold r1, overlaid.
      destruct (structured !! ef) as [v|]; [|reflexivity].
      destruct (truthy_val v); [apply lookup_insert_eq | reflexivity]. }
    destruct (IH Hnd r1) as (r' & E & U & P).
    exists r'. split; [exact E|]. split.
    + intros k Hk. cbn [map snd] in Hk.
      apply not_elem_of_cons in Hk as [Hne Hk].
      rewrite (U k Hk). now apply Hother.
    + intros entry Hin. apply elem_of_cons in Hin as [-> | Hin].
      * cbn [fst snd]. rewrite (U db Hfresh). exact Hsame.
      * rewrite (P entry Hin). f_equal. apply Hother.
        intros Heq. apply Hfresh. rewrite <- Heq.
        apply list_elem_of_In, in_map, list_elem_of_In, Hin.
Qed.

Lemma enhance_mgrs_frame (structured result result' : gmap string pyval)
  (k : string) :
  enhance_mgrs structured result = Ok result' ->
  k <> "MGRS" -> result' !! k = result !! k.
Proof.
  unfold enhance_mgrs, has_key, getitem. intros H Hk.
  destruct (structured !! "location_mgrs") as [new|];
    [|now injection H as <-].
  rewrite bind_Ok_l in H.
  destruct (truthy_val (default (VStr "") (result !! "MGRS"))).
  - bind_inv H as inside Hin. destruct (negb inside); injection H as <-;
      [now apply lookup_insert_ne | reflexivity].
  - injection H as <-. now apply lookup_insert_ne.
Qed.

Lemma enhance_mgrs_absent (structured result : gmap string pyval) :
  structured !! "location_mgrs" = None ->
  enhance_mgrs structured result = Ok result.
Proof.
  intros H. unfold enhance_mgrs, has_key. now rewrite H.
Qed.

(** The MGRS block on a string, over a column that is a string, [None] or
    missing. *)
Lemma enhance_mgrs_merged (structured result : gmap string pyval)
  (new : string) :
  structured !! "location_mgrs" = Some (VStr new) ->
  str_or_none (result !! "MGRS") = true ->
  exists result',
    enhance_mgrs structured result = Ok result'
    /\ result' !! "MGRS" = Some (VStr (merged (result !! "MGRS") new)).
Proof.
  intros Hnew Hex. unfold enhance_mgrs, has_key, getitem, merged.
  rewrite Hnew.
  destruct (result !! "MGRS") as [[|ex|l|d]|] eqn:E; try discriminate; cbn.
  - eexists. split; [reflexivity | apply lookup_insert_eq].
  - destruct (truthy ex) eqn:T; cbn.
    + destruct (contains new ex); cbn.
      * eexists. split; [reflexivity | exact E].
      * eexists. split; [reflexivity | apply lookup_insert_eq].
    + eexists. split; [reflexivity | apply lookup_insert_eq].
  - eexists. split; [reflexivity | apply lookup_insert_eq].
Qed.

(** Merging the same string into a merged column changes nothing. *)
Lemma merged_idempotent (existing : option pyval) (new : string) :
  merged (Some (VStr (merged existing new))) new = merged existing new.
Proof.
  assert (Hnew : merged (Some (VStr new)) new = new).
  { unfold merged. destruct (truthy new); [|reflexivity].
    now rewrite contains_self. }
  destruct existing as [[|ex|l|d]|]; try exact Hnew.
  unfold merged at 2 3. destruct (truthy ex) eqn:T; [|exact Hnew].
  destruct (contains new ex) eqn:C.
  - unfold merged. now rewrite T, C.
  - unfold merged. rewrite contains_appended.
    destruct ex; [discriminate | reflexivity].
Qed.

End Mapper.

Section MapperClaims.

Variable json_dumps :
  string -> list (string * float) -> pyval -> string -> string.

Lemma field_mapping_NoDup : NoDup (map snd field_mapping).
Proof. apply (bool_decide_unpack _). vm_compute. reflexivity. Qed.

Lemma field_mapping_columns :
  Forall (fun entry => snd entry <> "MGRS"
                       /\ snd entry <> "extraction_metadata") field_mapping.
Proof. repeat constructor; discriminate. Qed.

(** The three steps of [format_for_database], with the record after the
    overlay loop made explicit. *)
Lemma format_for_database_steps (e : extraction)
  (original : gmap string pyval) :
  exists mapped,
    map_fields (structured_fields e) original field_mapping = Ok mapped
    /\ mapped !! "MGRS" = original !! "MGRS"
    /\ format_for_database json_dumps e original
       = (result ← enhance_mgrs (structured_fields e) mapped;
          Ok (<["extraction_metadata" :=
                  VStr (json_dumps (document_type e) (confidence_scores e)
                          (default (VDict []) (structured_fields e !! "entities"))
                          (extraction_time (extraction_metadata e)))]>
                result)).
Proof.
  destruct (map_fields_spec (structured_fields e) field_mapping
              field_mapping_NoDup original) as (mapped & E & U & _).
  exists mapped. split; [exact E|]. split.
  - apply U. apply (bool_decide_unpack _). vm_compute. reflexivity.
  - unfold format_for_database. now rewrite E, bind_Ok_l.
Qed.

Lemma format_for_database_returns (e : extraction)
  (original : gmap string pyval) :
  mgrs_comparable e original = true ->
  exists result, format_for_database json_dumps e original = Ok result.
Proof.
  unfold mgrs_comparable. intros H.
  destruct (format_for_database_steps e original) as (mapped & _ & M & ->).
  destruct (structured_fields e !! "location_mgrs") as [[|new|l|d]|] eqn:Hnew;
    try discriminate.
  - destruct (enhance_mgrs_merged _ mapped new Hnew) as (r & -> & _);
      [now rewrite M|]. eexists; reflexivity.
  - rewrite (enhance_mgrs_absent _ _ Hnew). eexists; reflexivity.
Qed.

(** The MGRS column after mapping an extracted string. *)
Lemma format_for_database_mgrs (e : extraction)
  (original : gmap string pyval) (new : string) :
  structured_fields e !! "location_mgrs" = Some (VStr new) ->
  str_or_none (original !! "MGRS") = true ->
  exists result,
    format_for_database json_dumps e original = Ok result
    /\ result !! "MGRS" = Some (VStr (merged (original !! "MGRS") new)).
Proof.
  intros Hnew Hty.
  destruct (format_for_database_steps e original) as (mapped & _ & M & ->).
  destruct (enhance_mgrs_merged _ mapped new Hnew) as (r & -> & Hr);
    [now rewrite M|].
  rewrite bind_Ok_l. eexists. split; [reflexivity|].
  rewrite lookup_insert_ne by discriminate. now rewrite Hr, M.
Qed.

(** C7 (MGRS merge).  When a string [new] was extracted as [location_mgrs]:
    over a non-empty MGRS text that does not contain [new] the output is
    existing|new; over an empty, [None] or missing MGRS the output is [new];
    mapping the same extraction into the output again leaves the MGRS
    unchanged.  In particular "38SMB4484536781" merged with
    "42SXD8914734521" gives "38SMB4484536781|42SXD8914734521", and merging
    again does not repeat the second token. *)
Theorem mgrs_merge (e : extraction) (original : gmap string pyval)
  (new : string) :
  structured_fields e !! "location_mgrs" = Some (VStr new) ->
  (forall existing,
     original !! "MGRS" = Some (VStr existing) ->
     existing <> "" -> contains new existing = false ->
     exists result,
       format_for_database json_dumps e original = Ok result
       /\ result !! "MGRS" = Some (VStr (existing +:+ "|" +:+ new)))
  /\ (original !! "MGRS" = None \/ original !! "MGRS" = Some VNone
      \/ original !! "MGRS" = Some (VStr "") ->
      exists result,
        format_for_database json_dumps e original = Ok result
        /\ result !! "MGRS" = Some (VStr new))
  /\ (str_or_none (original !! "MGRS") = true ->
      exists result again,
        format_for_database json_dumps e original = Ok result
        /\ format_for_database json_dumps e result = Ok again
        /\ again !! "MGRS" = result !! "MGRS")
  /\ (new = "42SXD8914734521" ->
      original !! "MGRS" = Some (VStr "38SMB4484536781") ->
      exists result again,
        format_for_database json_dumps e original = Ok result
        /\ result !! "MGRS" = Some (VStr "38SMB4484536781|42SXD8914734521")
        /\ format_for_database json_dumps e result = Ok again
        /\ again !! "MGRS" = Some (VStr "38SMB4484536781|42SXD8914734521")).
Proof.
  intros Hnew.
  assert (Htwice : str_or_none (original !! "MGRS") = true ->
    exists result again,
      format_for_database json_dumps e original = Ok result
      /\ result !! "MGRS" = Some (VStr (merged (original !! "MGRS") new))
      /\ format_for_database json_dumps e result = Ok again
      /\ again !! "MGRS" = result !! "MGRS").
  { intros Hty.
    destruct (format_for_database_mgrs e original new Hnew Hty)
      as (result & E & M).
    destruct (format_for_database_mgrs e result new Hnew)
      as (again & E' & M'); [now rewrite M|].
    exists result, again. repeat split; try assumption.
    now rewrite M', M, merged_idempotent. }
  split; [|split; [|split]].
  - intros existing Hex Hne Hc.
    destruct (format_for_database_mgrs e original new Hnew)
      as (result & E & M); [now rewrite Hex|].
    exists result. split; [exact E|]. rewrite M, Hex. unfold merged.
    rewrite Hc. now destruct existing.
  - intros Hex.
    destruct (format_for_database_mgrs e original new Hnew)
      as (result & E & M);
      [destruct Hex as [-> | [-> | ->]]; reflexivity|].
    exists result. split; [exact E|]. rewrite M.
    destruct Hex as [-> | [-> | ->]]; reflexivity.
  - intros Hty. destruct (Htwice Hty) as (result & again & E & _ & E' & M).
    eauto.
  - intros -> Hex.
    destruct Htwice as (result & again & E & M & E' & M');
      [now rewrite Hex|].
    rewrite Hex in M. exists result, again.
    split; [exact E|]. split; [exact M|]. split; [exact E'|].
    now rewrite M'.
Qed.

(** C8 (frame of the mapper).  [format_for_database] returns a record
    whenever the MGRS block has comparable operands.  A returned record agrees
    with [original_fields] on every key other than the eight written columns;
    each of the six mapped columns holds the overlay when the corresponding
    structured field is present and non-empty and its original value
    otherwise; [extraction_metadata] is always the serialized metadata,
    whatever was there before. *)
Theorem format_for_database_frame (e : extraction)
  (original : gmap string pyval) :
  (mgrs_comparable e original = true ->
   exists result, format_for_database json_dumps e original = Ok result)
  /\ (forall result,
        format_for_database json_dumps e original = Ok result ->
        (forall k, k ∉ written_columns -> result !! k = original !! k)
        /\ (forall extracted_field db_field,
              (extracted_field, db_field) ∈ field_mapping ->
              result !! db_field
              = overlaid extracted_field
                  (structured_fields e !! extracted_field)
                  (original !! db_field))
        /\ result !! "extraction_metadata"
           = Some (VStr (json_dumps (document_type e) (confidence_scores e)
                           (default (VDict [])
                              (structured_fields e !! "entities"))
                           (extraction_time (extraction_metadata e))))).
Proof.
  split; [apply format_for_database_returns|].
  intros result H. unfold format_for_database in H.
  destruct (map_fields_spec (structured_fields e) field_mapping
              field_mapping_NoDup original) as (mapped & E & U & P).
  rewrite E, bind_Ok_l in H. bind_inv H as merged_record Hm.
  injection H as <-. split; [|split].
  - intros k Hk.
    change written_columns
      with (map snd field_mapping ++ ["MGRS"; "extraction_metadata"]) in Hk.
    apply not_elem_of_app in Hk as [Hk1 Hk2].
    apply not_elem_of_cons in Hk2 as [Hk2 Hk3].
    apply not_elem_of_cons in Hk3 as [Hk3 _].
    rewrite lookup_insert_ne by congruence.
    rewrite (enhance_mgrs_frame _ _ _ k Hm Hk2). now apply U.
  - intros extracted_field db_field Hin.
    pose proof field_mapping_columns as Hcols.
    rewrite Forall_forall in Hcols.
    destruct (Hcols _ Hin) as [Hc1 Hc2]. cbn [snd] in Hc1, Hc2.
    rewrite lookup_insert_ne by congruence.
    rewrite (enhance_mgrs_frame _ _ _ db_field Hm Hc1).
    exact (P _ Hin).
  - apply lookup_insert_eq.
Qed.

End MapperClaims.

Lemma mgrs_merge_witness :
  exists result again,
    format_for_database sample_dumps (with_mgrs "42SXD8914734521")
      {[ "MGRS" := VStr "38SMB4484536781" ]} = Ok result
    /\ result !! "MGRS" = Some (VStr "38SMB4484536781|42SXD8914734521")
    /\ format_for_database sample_dumps (with_mgrs "42SXD8914734521") result
       = Ok again
    /\ again !! "MGRS" = Some (VStr "38SMB4484536781|42SXD8914734521").
Proof.
  apply (mgrs_merge sample_dumps (with_mgrs "42SXD8914734521")
           {[ "MGRS" := VStr "38SMB4484536781" ]} "42SXD8914734521");
    vm_compute; reflexivity.
Defined.

Lemma format_for_database_frame_witness :
  exists result,
    format_for_database sample_dumps (with_mgrs "42SXD8914734521")
      {[ "id" := VStr "report_001"; "images" := VNone;
         "extraction_metadata" := VStr "stale" ]} = Ok result
    /\ result !! "id" = Some (VStr "report_001")
    /\ result !! "images" = Some VNone
    /\ result !! "extraction_metadata" = Some (VStr "{general_document@}").
Proof.
  pose proof (format_for_database_frame sample_dumps
                (with_mgrs "42SXD8914734521")
                {[ "id" := VStr "report_001"; "images" := VNone;
                   "extraction_metadata" := VStr "stale" ]}) as [Hret Hframe].
  destruct Hret as [result Hr]; [vm_compute; reflexivity|].
  destruct (Hframe result Hr) as (Hother & _ & Hmeta).
  exists result. split; [exact Hr|]. split; [|split].
  - rewrite Hother; [vm_compute; reflexivity|].
    apply (bool_decide_unpack _). vm_compute. reflexivity.
  - rewrite Hother; [vm_compute; reflexivity|].
    apply (bool_decide_unpack _). vm_compute. reflexivity.
  - rewrite Hmeta. vm_compute. reflexivity.
Defined.

(** ** Summary statistics and entities *)

(** A map whose keys all come from a duplicate-free list has as many entries
    as the list has keys present in the map. *)
Lemma size_by_keys {V} (m : gmap string V) (keys : list string) :
  NoDup keys ->
  (forall k, k ∉ keys -> m !! k = None) ->
  size m = length (filter (fun k => is_Some (m !! k)) keys).
Proof.
  intros Hnd Hkeys.
  rewrite <- size_dom.
  rewrite <- (size_list_to_set (C := gset string))
    by now apply NoDup_filter.
  f_equal. apply set_eq. intros k.
  rewrite elem_of_dom, elem_of_list_to_set, list_elem_of_filter.
  split; [|tauto]. intros Hk. split; [exact Hk|].
  destruct (decide (k ∈ keys)) as [|Hn]; [assumption|].
  rewrite (Hkeys k Hn) in Hk. now destruct Hk.
Qed.

Lemma filter_ext_elem {A} (P Q : A -> Prop)
  `{forall x, Decision (P x)} `{forall x, Decision (Q x)} (l : list A) :
  (forall x, x ∈ l -> P x <-> Q x) -> filter P l = filter Q l.
Proof.
  induction l as [|x l IH]; intros Hl; [reflexivity|].
  rewrite !filter_cons.
  assert (Hx : P x <-> Q x) by (apply Hl; left).
  rewrite IH by (intros y Hy; apply Hl; now right).
  destruct (decide (P x)), (decide (Q x)); tauto.
Qed.

Lemma chosen_selected (text : string) (entry : string * list string)
  (c : option (list string)) :
  candidates text entry = Ok c -> chosen text entry = selected c.
Proof. intros H. unfold chosen. now rewrite H. Qed.

Lemma populated_of_cons (text : string) (entry : string * list string)
  (rest : list (string * list string)) :
  populated_of text (entry :: rest)
  = match chosen text entry with
    | Some best => (fst entry, best) :: populated_of text rest
    | None => populated_of text rest
    end.
Proof. unfold populated_of. cbn. now destruct (chosen text entry). Qed.

(** The scores the field loop leaves: those it had, then one per populated
    entry, in order. *)
Lemma extract_fields_score_list (text : string)
  (entries : list (string * list string)) :
  NoDup (map fst entries) ->
  forall e e',
    extract_fields text e entries = Ok e' ->
    (forall t, t ∈ map fst entries -> dict_get t (confidence_scores e) = None) ->
    confidence_scores e'
    = confidence_scores e ++ scored text (populated_of text entries).
Proof.
  induction entries as [|entry0 rest IH]; intros Hnd e e' H Hfresh.
  - injection H as <-. cbn. now rewrite app_nil_r.
  - cbn [map] in Hnd. apply NoDup_cons in Hnd as [Hk Hnd].
    cbn [extract_fields] in H. bind_inv H as e1 H1.
    pose proof (extract_field_spec _ _ _ _ H1) as (c & Hc & _ & _ & C1 & _).
    assert (Hfresh1 : forall t, t ∈ map fst rest ->
                                dict_get t (confidence_scores e1) = None).
    { intros t Ht.
      destruct (extract_field_other text e entry0 e1 t H1) as (_ & _ & ->).
      - intros ->. contradiction.
      - apply Hfresh. cbn [map]. now right. }
    rewrite (IH Hnd _ _ H Hfresh1), C1.
    assert (H0 : dict_get (fst entry0) (confidence_scores e) = None)
      by (apply Hfresh; cbn [map]; left).
    rewrite populated_of_cons, (chosen_selected _ _ _ Hc).
    destruct (selected c) as [best|].
    + rewrite (dict_set_fresh _ _ _ H0). cbn [scored map fst snd].
      now rewrite <- app_assoc.
    + reflexivity.
Qed.

Lemma length_filter_omap {A B} (P : string -> Prop)
  `{forall t, Decision (P t)} (g : A -> string) (f : A -> option B)
  (l : list A) :
  (forall x, x ∈ l -> P (g x) <-> is_Some (f x)) ->
  length (filter P (map g l)) = length (omap f l).
Proof.
  induction l as [|x l IH]; intros Hl; [reflexivity|].
  assert (Hx : P (g x) <-> is_Some (f x)) by (apply Hl; left).
  assert (IH' : length (filter P (map g l)) = length (omap f l))
    by (apply IH; intros y Hy; apply Hl; now right).
  change (omap f (x :: l))
    with (match f x with Some b => b :: omap f l | None => omap f l end).
  cbn [map]. rewrite filter_cons.
  destruct (f x) as [b|].
  - rewrite decide_True by (apply Hx; now exists b).
    cbn [length]. now rewrite IH'.
  - rewrite decide_False; [exact IH'|].
    intros HP. apply Hx in HP. now destruct HP.
Qed.

(** What the summary statistics of an extraction are, read off the text. *)
Lemma statistics_spec (now text filename : string) (r : extraction) :
  extract_structured_data now text filename = Ok r ->
  size (structured_fields r) = 2 + length (populated text)
  /\ confidence_scores r = scored text (populated text)
  /\ fields_found (extraction_metadata r) = Some (size (structured_fields r))
  /\ avg_confidence (extraction_metadata r)
     = Some (arithmetic_mean (map snd (confidence_scores r))).
Proof.
  intros Hr.
  destruct (extract_structured_data_spec now text filename)
    as (e & ents & He & _ & Hfin).
  rewrite Hfin in Hr. injection Hr as <-.
  destruct (extract_fields_spec text patterns field_types_NoDup _ _ He)
    as (_ & _ & U & P).
  destruct synthetic_keys_fresh as (_ & _ & Hk & Hen).
  assert (Hout : forall k, k ∉ field_types -> structured_fields e !! k = None).
  { intros k Hk'. destruct (U k Hk') as (_ & -> & _). apply lookup_empty. }
  cbn [finished extraction_metadata fields_found avg_confidence
       structured_fields confidence_scores].
  split; [|split; [|split; [reflexivity|]]].
  - rewrite map_size_insert_None
      by (rewrite lookup_insert_ne by discriminate; now apply Hout).
    rewrite map_size_insert_None by now apply Hout.
    cbn [Nat.add]. do 2 f_equal.
    rewrite (size_by_keys _ field_types field_types_NoDup Hout).
    unfold field_types, populated, populated_of.
    apply length_filter_omap. intros entry Hin.
    destruct (P entry Hin) as (c & Hc & _ & S & _).
    rewrite S, (chosen_selected _ _ _ Hc).
    destruct (selected c); cbn.
    + split; eauto.
    + rewrite lookup_empty. split; intros [? [=]].
  - rewrite (extract_fields_score_list text patterns field_types_NoDup _ _ He)
      by (intros; reflexivity).
    reflexivity.
  - f_equal. unfold average, arithmetic_mean, total.
    destruct (confidence_scores e) as [|s l]; [reflexivity|].
    rewrite decide_False by discriminate. now rewrite !length_map.
Qed.

Lemma populated_spec (now text filename : string) (r : extraction)
  (t v : string) :
  extract_structured_data now text filename = Ok r ->
  (t, v) ∈ populated text
  <-> t ∈ field_types /\ structured_fields r !! t = Some (VStr v).
Proof.
  intros Hr. unfold populated, populated_of. rewrite list_elem_of_omap.
  split.
  - intros (entry & Hin & Hv).
    destruct (extraction_field _ _ _ _ _ Hr Hin) as (c & Hc & _ & S & _).
    rewrite (chosen_selected _ _ _ Hc) in Hv.
    destruct (selected c) as [best|]; [|discriminate].
    injection Hv as <- <-. split; [|exact S].
    apply list_elem_of_In, in_map, list_elem_of_In, Hin.
  - intros [Ht Hv]. unfold field_types in Ht.
    apply list_elem_of_fmap in Ht as (entry & -> & Hin).
    destruct (extraction_field _ _ _ _ _ Hr Hin) as (c & Hc & _ & S & _).
    exists entry. split; [exact Hin|].
    rewrite (chosen_selected _ _ _ Hc). rewrite S in Hv.
    destruct (selected c) as [best|]; [|discriminate].
    now injection Hv as ->.
Qed.

(** C9 (summary statistics), as amended.  In every extraction result,
    [fields_found] is the number of entries of [structured_fields]: one per
    populated field type of the text, plus two for the [key_themes] and
    [entities] entries, which are always there.  The confidence scores are
    those of the populated field types, one each, and [avg_confidence] is
    their arithmetic mean, [0.0] when no field type is populated. *)
Theorem summary_statistics
  (now text filename : string) (r : extraction) :
  extract_structured_data now text filename = Ok r ->
  (forall t v, (t, v) ∈ populated text
               <-> t ∈ field_types /\ structured_fields r !! t = Some (VStr v))
  /\ is_Some (structured_fields r !! "key_themes")
  /\ is_Some (structured_fields r !! "entities")
  /\ size (structured_fields r) = 2 + length (populated text)
  /\ fields_found (extraction_metadata r) = Some (2 + length (populated text))
  /\ confidence_scores r = scored text (populated text)
  /\ avg_confidence (extraction_metadata r)
     = Some (arithmetic_mean (map snd (scored text (populated text))))
  /\ (populated text = [] ->
      avg_confidence (extraction_metadata r) = Some 0.0%float).
Proof.
  intros Hr.
  destruct (statistics_spec _ _ _ _ Hr) as (Hsize & Hscores & Hfound & Havg).
  split; [intros t v; exact (populated_spec _ _ _ _ t v Hr)|].
  assert (Hsyn : is_Some (structured_fields r !! "key_themes")
                 /\ is_Some (structured_fields r !! "entities")).
  { destruct (extract_structured_data_spec now text filename)
      as (e & ents & _ & _ & Hfin).
    rewrite Hfin in Hr. injection Hr as <-. cbn [finished structured_fields].
    split.
    - rewrite lookup_insert_ne by discriminate. rewrite lookup_insert_eq. eauto.
    - rewrite lookup_insert_eq. eauto. }
  destruct Hsyn as [Hk He].
  split; [exact Hk|]. split; [exact He|]. split; [exact Hsize|].
  split; [now rewrite Hfound, Hsize|]. split; [exact Hscores|].
  rewrite Hscores in Havg. split; [exact Havg|].
  intros Hnone. rewrite Havg, Hnone. reflexivity.
Qed.

Lemma summary_statistics_witness :
  exists r,
    extract_structured_data ""
      (lines ["Date: 01/15/2023"; "MGRS: 38SMB4484536781"]) "" = Ok r
    /\ populated (lines ["Date: 01/15/2023"; "MGRS: 38SMB4484536781"])
       = [("date_time", "2023-01-15"); ("location_mgrs", "38SMB4484536781")]
    /\ fields_found (extraction_metadata r) = Some 4
    /\ confidence_scores r
       = [("date_time", 0.7%float); ("location_mgrs", 0.9%float)]
    /\ avg_confidence (extraction_metadata r) = Some 0.8%float.
Proof.
  assert (H : exists r,
    extract_structured_data ""
      (lines ["Date: 01/15/2023"; "MGRS: 38SMB4484536781"]) "" = Ok r)
    by (eexists; vm_compute; reflexivity).
  destruct H as (r & Hr). exists r. split; [exact Hr|].
  destruct (summary_statistics _ _ _ _ Hr)
    as (_ & _ & _ & _ & Hfound & Hscores & Havg & _).
  assert (Hp : populated (lines ["Date: 01/15/2023"; "MGRS: 38SMB4484536781"])
               = [("date_time", "2023-01-15");
                  ("location_mgrs", "38SMB4484536781")])
    by (vm_compute; reflexivity).
  split; [exact Hp|]. rewrite Hp in Hfound, Hscores, Havg.
  split; [exact Hfound|]. split.
  - rewrite Hscores. vm_compute. reflexivity.
  - rewrite Havg. vm_compute. reflexivity.
Defined.

(** C9 as stated fails on the empty text: no field type is populated and
    there is no confidence score, yet [fields_found] is 2, which is neither
    the number of populated field types nor the number of structured values
    that are non-empty (the [entities] map alone is, having its four
    keys). *)
Lemma fields_found_counts_synthetic_counterexample :
  exists r,
    extract_structured_data "" "" "" = Ok r
    /\ populated "" = []
    /\ confidence_scores r = []
    /\ structured_fields r
       = {[ "key_themes" := VList []; "entities" := VDict no_entities ]}
    /\ length (truthy_values (structured_fields r)) = 1
    /\ fields_found (extraction_metadata r) = Some 2
    /\ fields_found (extraction_metadata r) <> Some (length (populated ""))
    /\ fields_found (extraction_metadata r)
       <> Some (length (truthy_values (structured_fields r))).
Proof.
  eexists. split; [vm_compute; reflexivity|].
  repeat split; try (vm_compute; reflexivity); vm_compute; discriminate.
Qed.

(** C10 (organizations stay empty).  For every text the entity miner returns
    a map with an [organizations] key whose list is empty, and so does the
    [entities] entry of every extraction result. *)
Theorem organizations_always_empty :
  (forall text,
     exists ents,
       extract_entities text = Ok ents
       /\ dict_get "organizations" ents = Some [])
  /\ (forall now text filename r,
        extract_structured_data now text filename = Ok r ->
        exists ents,
          structured_fields r !! "entities" = Some (VDict ents)
          /\ dict_get "organizations" ents = Some []).
Proof.
  split.
  - intros text. destruct (extract_entities_spec text) as (ents & E & _ & O).
    eauto.
  - intros now text filename r Hr.
    destruct (extract_structured_data_spec now text filename)
      as (e & ents & _ & E & Hfin).
    rewrite Hfin in Hr. injection Hr as <-.
    destruct (extract_entities_spec text) as (ents' & E' & _ & O).
    rewrite E in E'. injection E' as <-.
    exists ents. split; [apply lookup_insert_eq | exact O].
Qed.

Lemma organizations_always_empty_witness :
  exists r ents,
    extract_structured_data ""
      "Officer: John Smith met Acme Corp near Kabul with a UAV" "" = Ok r
    /\ structured_fields r !! "entities" = Some (VDict ents)
    /\ dict_get "organizations" ents = Some [].
Proof.
  assert (H : exists r,
    extract_structured_data ""
      "Officer: John Smith met Acme Corp near Kabul with a UAV" "" = Ok r)
    by (eexists; vm_compute; reflexivity).
  destruct H as (r & Hr).
  destruct (proj2 organizations_always_empty _ _ _ _ Hr) as (ents & H).
  exists r, ents. split; [exact Hr | exact H].
Defined.
